(** * A shallow embedding of the note-taking API (src/main.py)

    Workspaces contain Pages, Pages contain Blocks.  The handlers of
    [src/main.py] are embedded as computations in a small state-and-exception
    monad over a document store; every call that reaches the store leaves an
    entry in an access log, so that "no store access" is a statement about
    the log. *)

From Stdlib Require Import ZArith NArith Ascii String.
From stdpp Require Import gmap strings list fin_maps sorting pretty.

Local Open Scope string_scope.
Local Open Scope Z_scope.
Local Open Scope list_scope.

(** ** Values and documents

    A stored document is a Python [dict] from field names to values.  The
    values that the handlers can put into a document are [None], booleans,
    integers, strings and [ObjectId]s (twelve bytes, kept as the number they
    spell). *)

Inductive value : Type :=
  | VNone
  | VBool (b : bool)
  | VInt (z : Z)
  | VStr (s : string)
  | VOid (o : N).

#[global] Instance value_eq_dec : EqDecision value.
Proof. solve_decision. Defined.

Abbreviation doc := (gmap string value).

(** ** Identifier codec: [bson.ObjectId] and [ensure_object_id] *)

Module Codec.

Definition hex_val (c : ascii) : option N :=
  let n := N_of_ascii c in
  if ((48 <=? n) && (n <=? 57))%N then Some (n - 48)%N
  else if ((97 <=? n) && (n <=? 102))%N then Some (n - 87)%N
  else if ((65 <=? n) && (n <=? 70))%N then Some (n - 55)%N
  else None.

Fixpoint hex_fold (acc : N) (s : string) : option N :=
  match s with
  | EmptyString => Some acc
  | String c s' =>
      match hex_val c with
      | Some d => hex_fold (16 * acc + d)%N s'
      | None => None
      end
  end.

(** [ObjectId(s)] for a string argument: the string must be 24 hexadecimal
    digits; anything else raises [InvalidId]. *)
Definition ObjectId (s : string) : option N :=
  if Nat.eqb (String.length s) 24 then hex_fold 0%N s else None.

Definition hex_char (d : N) : ascii :=
  if (d <? 10)%N then ascii_of_N (48 + d) else ascii_of_N (87 + d).

Fixpoint hex_digits (n : nat) (o : N) (acc : string) : string :=
  match n with
  | O => acc
  | S n' => hex_digits n' (o / 16)%N (String (hex_char (o mod 16)%N) acc)
  end.

(** [str(oid)]: the 24 lower-case hexadecimal digits. *)
Definition oid_str (o : N) : string := hex_digits 24 o "".

End Codec.

(** [str(v)] as Python prints the values of the model. *)
Definition py_str (v : value) : string :=
  match v with
  | VNone => "None"
  | VBool true => "True"
  | VBool false => "False"
  | VInt z => pretty z
  | VStr s => s
  | VOid o => Codec.oid_str o
  end.

(** ** Exceptions and responses *)

Inductive exn : Type :=
  | HTTPException (status_code : Z) (detail : string)
  | TypeError.

Inductive result (A : Type) : Type :=
  | Ok (a : A)
  | Raise (e : exn).
Arguments Ok {A} a.
Arguments Raise {A} e.

(** What a handler returns to the transport layer: a JSON object, a JSON
    array of objects, or [null]. *)
Inductive response : Type :=
  | RDoc (d : doc)
  | RList (l : list doc)
  | RNull.

(** ** The document store *)

Inductive coll : Type := Workspace | Page | Block.

#[global] Instance coll_eq_dec : EqDecision coll.
Proof. solve_decision. Defined.

(** Each collection keeps its documents in insertion order; [next_oid] is the
    generator of fresh [_id]s. *)
Record store : Type := Store {
  workspace : list doc;
  page : list doc;
  block : list doc;
  next_oid : N
}.

Definition get_coll (c : coll) (s : store) : list doc :=
  match c with
  | Workspace => workspace s
  | Page => page s
  | Block => block s
  end.

Definition set_coll (c : coll) (l : list doc) (s : store) : store :=
  match c with
  | Workspace => Store l (page s) (block s) (next_oid s)
  | Page => Store (workspace s) l (block s) (next_oid s)
  | Block => Store (workspace s) (page s) l (next_oid s)
  end.

(** One entry per call that reaches the store. *)
Inductive access : Type :=
  | AInsertOne (c : coll)
  | AFind (c : coll)
  | AFindOne (c : coll)
  | AUpdateOne (c : coll)
  | ADeleteOne (c : coll)
  | ADeleteMany (c : coll).

Record state : Type := State {
  db : store;
  log : list access
}.

(** ** The monad of handlers: state plus exceptions.  An exception keeps the
    state reached so far (there is no transaction to roll back). *)

Definition M (A : Type) : Type := state → result A * state.

#[global] Instance M_ret : MRet M := λ A a st, (Ok a, st).

#[global] Instance M_bind : MBind M := λ A B k m st,
  match m st with
  | (Ok a, st') => k a st'
  | (Raise e, st') => (Raise e, st')
  end.

Definition raise {A} (e : exn) : M A := λ st, (Raise e, st).

Definition touch (a : access) : M unit :=
  λ st, (Ok tt, State (db st) (log st ++ [a])).

Definition read_coll (c : coll) : M (list doc) :=
  λ st, (Ok (get_coll c (db st)), st).

Definition write_coll (c : coll) (l : list doc) : M unit :=
  λ st, (Ok tt, State (set_coll c l (db st)) (log st)).

Definition fresh_oid : M N :=
  λ st, (Ok (next_oid (db st)),
         State (Store (workspace (db st)) (page (db st)) (block (db st))
                      (N.succ (next_oid (db st))))
               (log st)).

(** ** Collection operations (pymongo) *)

(** An equality filter [{k: v, ...}] selects the documents that carry every
    listed field with the listed value. *)
Definition matches (filt d : doc) : bool :=
  forallb (λ kv, bool_decide (d !! kv.1 = Some kv.2)) (map_to_list filt).

Fixpoint update_first (filt upd : doc) (l : list doc) : option (list doc) :=
  match l with
  | [] => None
  | d :: l' =>
      if matches filt d then Some ((upd ∪ d) :: l')
      else cons d <$> update_first filt upd l'
  end.

Fixpoint delete_first (filt : doc) (l : list doc) : option (list doc) :=
  match l with
  | [] => None
  | d :: l' =>
      if matches filt d then Some l'
      else cons d <$> delete_first filt l'
  end.

Definition find (c : coll) (filt : doc) : M (list doc) :=
  _ ← touch (AFind c) ;
  l ← read_coll c ;
  mret (List.filter (matches filt) l).

Definition find_one (c : coll) (filt : doc) : M (option doc) :=
  _ ← touch (AFindOne c) ;
  l ← read_coll c ;
  mret (List.find (matches filt) l).

(** [insert_one] gives the document a fresh [_id] and appends it. *)
Definition insert_one (c : coll) (d : doc) : M N :=
  _ ← touch (AInsertOne c) ;
  o ← fresh_oid ;
  l ← read_coll c ;
  _ ← write_coll c (l ++ [ <["_id" := VOid o]> d ]) ;
  mret o.

(** [update_one(filt, {"$set": upd})]: the first matching document gets the
    fields of [upd]; the result is [matched_count]. *)
Definition update_one (c : coll) (filt upd : doc) : M nat :=
  _ ← touch (AUpdateOne c) ;
  l ← read_coll c ;
  match update_first filt upd l with
  | Some l' => _ ← write_coll c l' ; mret 1%nat
  | None => mret 0%nat
  end.

(** [delete_one(filt)]: the result is [deleted_count]. *)
Definition delete_one (c : coll) (filt : doc) : M nat :=
  _ ← touch (ADeleteOne c) ;
  l ← read_coll c ;
  match delete_first filt l with
  | Some l' => _ ← write_coll c l' ; mret 1%nat
  | None => mret 0%nat
  end.

Definition delete_many (c : coll) (filt : doc) : M nat :=
  _ ← touch (ADeleteMany c) ;
  l ← read_coll c ;
  let keep := List.filter (λ d, negb (matches filt d)) l in
  _ ← write_coll c keep ;
  mret (length l - length keep)%nat.

(** ** Request models (the pydantic classes of src/main.py) *)

Definition opt_str (o : option string) : value :=
  match o with Some s => VStr s | None => VNone end.

Definition opt_bool (o : option bool) : value :=
  match o with Some b => VBool b | None => VNone end.

Definition opt_int (o : option Z) : value :=
  match o with Some z => VInt z | None => VNone end.

(** A field of a JSON request body: left out, given as [null], or given with
    a value. *)
Inductive field (A : Type) : Type :=
  | Absent
  | Null
  | Given (a : A).
Arguments Absent {A}.
Arguments Null {A}.
Arguments Given {A} a.

(** A model field declared [Optional[T] = None]. *)
Definition optional {A} (f : field A) : option A :=
  match f with
  | Absent => None
  | Null => None
  | Given a => Some a
  end.

Module CreateWorkspace.
Record t : Type := Build { name : string }.
Definition model_dump (p : t) : doc := {[ "name" := VStr (name p) ]}.
End CreateWorkspace.

Module CreatePage.
Record t : Type := Build { workspace_id : string; title : option string }.
Definition model_dump (p : t) : doc :=
  <["workspace_id" := VStr (workspace_id p)]>
    {[ "title" := opt_str (title p) ]}.
End CreatePage.

Module CreateBlock.
Record t : Type := Build {
  page_id : string;
  type : string;
  content : string;
  checked : option bool;
  position : Z
}.
Definition model_dump (p : t) : doc :=
  <["page_id" := VStr (page_id p)]>
    (<["type" := VStr (type p)]>
       (<["content" := VStr (content p)]>
          (<["checked" := opt_bool (checked p)]>
             {[ "position" := VInt (position p) ]}))).
End CreateBlock.

Module UpdatePage.
Record t : Type := Build { title : option string }.
Definition model_dump (p : t) : doc := {[ "title" := opt_str (title p) ]}.
(** The request body as the client wrote it, and its validation. *)
Record body : Type := Body { body_title : field string }.
Definition model_validate (b : body) : t :=
  Build (optional (body_title b)).
End UpdatePage.

Module UpdateBlock.
Record t : Type := Build {
  content : option string;
  checked : option bool;
  position : option Z
}.
Definition model_dump (p : t) : doc :=
  <["content" := opt_str (content p)]>
    (<["checked" := opt_bool (checked p)]>
       {[ "position" := opt_int (position p) ]}).
Record body : Type := Body {
  body_content : field string;
  body_checked : field bool;
  body_position : field Z
}.
Definition model_validate (b : body) : t :=
  Build (optional (body_content b)) (optional (body_checked b))
        (optional (body_position b)).
End UpdateBlock.

(** ** Helpers of src/main.py *)

(** [serialize]: an empty document is returned as it is; otherwise a copy
    whose [_id], when there is one, is replaced by its string form. *)
Definition serialize (d : doc) : doc :=
  if bool_decide (d = ∅) then d
  else match d !! "_id" with
       | Some v => <["_id" := VStr (py_str v)]> d
       | None => d
       end.

(** [serialize] applied to the result of [find_one], which may be [None]. *)
Definition serialize_opt (o : option doc) : response :=
  match o with
  | Some d => RDoc (serialize d)
  | None => RNull
  end.

Definition ensure_object_id (id_str : string) : M N :=
  match Codec.ObjectId id_str with
  | Some o => mret o
  | None => raise (HTTPException 400 "Invalid id")
  end.

(** [{k: v for k, v in d.items() if v is not None}] *)
Definition not_none (d : doc) : doc :=
  filter (λ kv, kv.2 ≠ VNone) d.

(** [{"_id": id, **d}] *)
Definition with_id (id : string) (d : doc) : doc :=
  d ∪ {[ "_id" := VStr id ]}.

(** Modelled from the spec: [create_document] of the absent module
    [database] is the store's [insert(kind, fields) -> id]: it inserts the
    record, the store assigns the identifier, and the identifier comes back
    in its string form. *)
Definition create_document (c : coll) (data : doc) : M string :=
  o ← insert_one c data ;
  mret (Codec.oid_str o).

(** Modelled from the spec: [get_documents] of the absent module [database]
    is the store's [find(kind, filter) -> list of records], in the store's
    order. *)
Definition get_documents (c : coll) (filt : doc) : M (list doc) :=
  find c filt.

(** ** [list.sort(key=...)]

    Python compares the keys with [<] only and keeps equal keys in their
    original order.  Integers and booleans compare as integers, strings with
    strings, identifiers with identifiers; any other pair raises
    [TypeError]. *)

Definition py_lt (a b : value) : option bool :=
  match a, b with
  | VInt x, VInt y => Some (x <? y)
  | VInt x, VBool y => Some (x <? Z.b2z y)
  | VBool x, VInt y => Some (Z.b2z x <? y)
  | VBool x, VBool y => Some (Z.b2z x <? Z.b2z y)
  | VStr x, VStr y => Some (String.ltb x y)
  | VOid x, VOid y => Some (x <? y)%N
  | _, _ => None
  end.

Section sort.
Context {A : Type} (key : A → value).

Fixpoint insert_by (x : A) (l : list A) : option (list A) :=
  match l with
  | [] => Some [x]
  | y :: l' =>
      match py_lt (key y) (key x) with
      | Some true => cons y <$> insert_by x l'
      | Some false => Some (x :: y :: l')
      | None => None
      end
  end.

Fixpoint sort_by (l : list A) : option (list A) :=
  match l with
  | [] => Some []
  | x :: l' => sort_by l' ≫= insert_by x
  end.
End sort.

Definition py_sort {A} (key : A → value) (l : list A) : M (list A) :=
  match sort_by key l with
  | Some l' => mret l'
  | None => raise TypeError
  end.

(** [x.get("position", 0)] *)
Definition position_key (x : doc) : value :=
  default (VInt 0) (x !! "position").

(** ** Handlers *)

Definition create_workspace (payload : CreateWorkspace.t) : M response :=
  workspace_id ← create_document Workspace (CreateWorkspace.model_dump payload) ;
  mret (RDoc (with_id workspace_id (CreateWorkspace.model_dump payload))).

Definition list_workspaces : M response :=
  items ← get_documents Workspace ∅ ;
  mret (RList (serialize <$> items)).

Definition create_page (payload : CreatePage.t) : M response :=
  oid ← ensure_object_id (CreatePage.workspace_id payload) ;
  ws ← find_one Workspace {[ "_id" := VOid oid ]} ;
  match ws with
  | None => raise (HTTPException 404 "Workspace not found")
  | Some _ =>
      page_id ← create_document Page (CreatePage.model_dump payload) ;
      mret (RDoc (with_id page_id (CreatePage.model_dump payload)))
  end.

(** [if workspace_id]: [None] and the empty string are both falsy. *)
Definition list_pages (workspace_id : option string) : M response :=
  let filt : doc :=
    match workspace_id with
    | Some (String c s) => {[ "workspace_id" := VStr (String c s) ]}
    | Some EmptyString => ∅
    | None => ∅
    end in
  items ← get_documents Page filt ;
  mret (RList (serialize <$> items)).

Definition update_page (page_id : string) (payload : UpdatePage.t) : M response :=
  let update := not_none (UpdatePage.model_dump payload) in
  if bool_decide (update = ∅) then mret (RDoc {[ "_id" := VStr page_id ]})
  else
    oid ← ensure_object_id page_id ;
    matched_count ← update_one Page {[ "_id" := VOid oid ]} update ;
    if Nat.eqb matched_count 0
    then raise (HTTPException 404 "Page not found")
    else
      oid' ← ensure_object_id page_id ;
      d ← find_one Page {[ "_id" := VOid oid' ]} ;
      mret (serialize_opt d).

Definition delete_page (page_id : string) : M response :=
  oid ← ensure_object_id page_id ;
  deleted_count ← delete_one Page {[ "_id" := VOid oid ]} ;
  _ ← delete_many Block {[ "page_id" := VStr page_id ]} ;
  if Nat.eqb deleted_count 0
  then raise (HTTPException 404 "Page not found")
  else mret (RDoc {[ "deleted" := VBool true ]}).

Definition create_block (payload : CreateBlock.t) : M response :=
  oid ← ensure_object_id (CreateBlock.page_id payload) ;
  pg ← find_one Page {[ "_id" := VOid oid ]} ;
  match pg with
  | None => raise (HTTPException 404 "Page not found")
  | Some _ =>
      block_id ← create_document Block (CreateBlock.model_dump payload) ;
      mret (RDoc (with_id block_id (CreateBlock.model_dump payload)))
  end.

Definition list_blocks (page_id : string) : M response :=
  items ← get_documents Block {[ "page_id" := VStr page_id ]} ;
  items' ← py_sort position_key items ;
  mret (RList (serialize <$> items')).

Definition update_block (block_id : string) (payload : UpdateBlock.t) : M response :=
  let update := not_none (UpdateBlock.model_dump payload) in
  if bool_decide (update = ∅) then mret (RDoc {[ "_id" := VStr block_id ]})
  else
    oid ← ensure_object_id block_id ;
    matched_count ← update_one Block {[ "_id" := VOid oid ]} update ;
    if Nat.eqb matched_count 0
    then raise (HTTPException 404 "Block not found")
    else
      oid' ← ensure_object_id block_id ;
      d ← find_one Block {[ "_id" := VOid oid' ]} ;
      mret (serialize_opt d).

Definition delete_block (block_id : string) : M response :=
  oid ← ensure_object_id block_id ;
  deleted_count ← delete_one Block {[ "_id" := VOid oid ]} ;
  if Nat.eqb deleted_count 0
  then raise (HTTPException 404 "Block not found")
  else mret (RDoc {[ "deleted" := VBool true ]}).

(** ** The API as a transition system *)

Inductive request : Type :=
  | CreateWorkspaceReq (payload : CreateWorkspace.t)
  | ListWorkspacesReq
  | CreatePageReq (payload : CreatePage.t)
  | ListPagesReq (workspace_id : option string)
  | UpdatePageReq (page_id : string) (payload : UpdatePage.t)
  | DeletePageReq (page_id : string)
  | CreateBlockReq (payload : CreateBlock.t)
  | ListBlocksReq (page_id : string)
  | UpdateBlockReq (block_id : string) (payload : UpdateBlock.t)
  | DeleteBlockReq (block_id : string).

Definition handle (r : request) : M response :=
  match r with
  | CreateWorkspaceReq p => create_workspace p
  | ListWorkspacesReq => list_workspaces
  | CreatePageReq p => create_page p
  | ListPagesReq w => list_pages w
  | UpdatePageReq i p => update_page i p
  | DeletePageReq i => delete_page i
  | CreateBlockReq p => create_block p
  | ListBlocksReq i => list_blocks i
  | UpdateBlockReq i p => update_block i p
  | DeleteBlockReq i => delete_block i
  end.

(** The state after serving the requests one after the other, whatever each
    of them answered. *)
Definition run (rs : list request) (st : state) : state :=
  foldl (λ st r, (handle r st).2) st rs.

Definition init : state := State (Store [] [] [] 0) [].

(** ** Notions used in the statements *)

(** The integer a sort key stands for, when it is an integer or a boolean. *)
Definition as_int (v : value) : option Z :=
  match v with
  | VInt z => Some z
  | VBool b => Some (Z.b2z b)
  | _ => None
  end.

(** The integer an item is sorted by, and whether its key is one. *)
Definition int_of_key {A} (key : A → value) (x : A) : Z :=
  default 0 (as_int (key x)).

Definition has_int_key {A} (key : A → value) (x : A) : Prop :=
  is_Some (as_int (key x)).

(** The position a Block is sorted by. *)
Definition block_position (d : doc) : Z := int_of_key position_key d.

Definition position_le (a b : doc) : Prop :=
  block_position a ≤ block_position b.

Definition has_page_id (page_id : string) (d : doc) : bool :=
  bool_decide (d !! "page_id" = Some (VStr page_id)).

Definition has_workspace_id (workspace_id : string) (d : doc) : bool :=
  bool_decide (d !! "workspace_id" = Some (VStr workspace_id)).

(** ** A sample session (the example of the specification) *)

Definition W1 : string := "000000000000000000000000".
Definition P1 : string := "000000000000000000000001".
Definition B1 : string := "000000000000000000000002".
Definition B2 : string := "000000000000000000000003".

Definition sample_requests : list request :=
  [ CreateWorkspaceReq (CreateWorkspace.Build "Eng");
    CreatePageReq (CreatePage.Build W1 (Some "Sprint Notes"));
    CreateBlockReq (CreateBlock.Build P1 "todo" "Write spec" (Some false) 1);
    CreateBlockReq (CreateBlock.Build P1 "text" "Review" (Some false) 0);
    CreateBlockReq (CreateBlock.Build P1 "text" "Ship" (Some false) 1) ].

Definition sample : state := run sample_requests init.

(** [d] is the first document of [l] that satisfies [P], at index [i]. *)
Definition first_at (P : doc → bool) (l : list doc) (i : nat) (d : doc) : Prop :=
  l !! i = Some d ∧ P d = true
  ∧ ∀ j e, (j < i)%nat → l !! j = Some e → P e = false.

(** A request-body field that carries no value. *)
Definition valueless {A} (f : field A) : bool :=
  match f with
  | Given _ => false
  | _ => true
  end.

(** The same field with an explicit [null] left out instead. *)
Definition null_to_absent {A} (f : field A) : field A :=
  match f with
  | Null => Absent
  | _ => f
  end.

Definition page_body_without_nulls (b : UpdatePage.body) : UpdatePage.body :=
  UpdatePage.Body (null_to_absent (UpdatePage.body_title b)).

Definition block_body_without_nulls (b : UpdateBlock.body) : UpdateBlock.body :=
  UpdateBlock.Body (null_to_absent (UpdateBlock.body_content b))
                   (null_to_absent (UpdateBlock.body_checked b))
                   (null_to_absent (UpdateBlock.body_position b)).

(** Updates used on the sample session. *)
Definition retitle : UpdatePage.t := UpdatePage.Build (Some "Retro").
Definition tick : UpdateBlock.t := UpdateBlock.Build None (Some true) None.

(** The answer of a handler, or [null] when it raised. *)
Definition answer (x : result response * state) : response :=
  match x.1 with
  | Ok r => r
  | Raise _ => RNull
  end.

(** The sample session continued with a Page and a Block created with an
    explicit [null] ([title] and [checked] are [Optional] in the create
    models). *)
Definition sample_nulls : state :=
  run [ CreatePageReq (CreatePage.Build W1 None);
        CreateBlockReq (CreateBlock.Build P1 "text" "" None 2) ] sample.

(** ** Identity of records and what stays fixed in them *)

Definition ids (l : list doc) : list (option value) :=
  (λ d : doc, d !! "_id") <$> l.

(** The record carries an [ObjectId] handed out before [n] (from [n] on). *)
Definition oid_below (n : N) (d : doc) : Prop :=
  ∃ o, d !! "_id" = Some (VOid o) ∧ (o < n)%N.

Definition oid_from (n : N) (d : doc) : Prop :=
  ∃ o, d !! "_id" = Some (VOid o) ∧ (n ≤ o)%N.

(** In every collection the identifiers are pairwise distinct and were handed
    out by the generator. *)
Definition ids_ok_coll (n : N) (l : list doc) : Prop :=
  NoDup (ids l) ∧ Forall (oid_below n) l.

Definition ids_ok (s : store) : Prop :=
  ∀ c, ids_ok_coll (next_oid s) (get_coll c s).

(** Every stored Block has an integer position (or none, read as 0). *)
Definition int_position (d : doc) : Prop := has_int_key position_key d.

Definition positions_ok (s : store) : Prop :=
  Forall int_position (block s).

(** The fields that the update models of src/main.py can carry. *)
Definition updatable (c : coll) : list string :=
  match c with
  | Workspace => []
  | Page => ["title"]
  | Block => ["content"; "checked"; "position"]
  end.

(** [d'] agrees with [d] on every field that is not updatable: the
    identifier, the parent references, the type. *)
Definition same_fixed (c : coll) (d d' : doc) : Prop :=
  ∀ k, k ∉ updatable c → d' !! k = d !! k.

(** Every record of [l'] continues a record of [l] or is new since [n]. *)
Definition evolves (c : coll) (n : N) (l l' : list doc) : Prop :=
  ∀ d', d' ∈ l' → (∃ d, d ∈ l ∧ same_fixed c d d') ∨ oid_from n d'.

Definition step_ok (s s' : store) : Prop :=
  (next_oid s ≤ next_oid s')%N
  ∧ (ids_ok s → ids_ok s')
  ∧ (positions_ok s → positions_ok s')
  ∧ ∀ c, evolves c (next_oid s) (get_coll c s) (get_coll c s').

Definition preserves {A} (m : M A) : Prop :=
  ∀ st, step_ok (db st) (db (m st).2).

(** An update mapping that carries updatable fields only, and an integer
    when it carries a position. *)
Definition update_ok (c : coll) (upd : doc) : Prop :=
  (∀ k, k ∉ updatable c → upd !! k = None)
  ∧ ∀ v, upd !! "position" = Some v → is_Some (as_int v).

(** What [update_page] and [update_block] do once the mapping is known not
    to be empty; [c], [missing] and [upd] are what differs between them. *)
Definition apply_update (c : coll) (missing : string) (id : string)
    (upd : doc) : M response :=
  oid ← ensure_object_id id ;
  matched_count ← update_one c {[ "_id" := VOid oid ]} upd ;
  if Nat.eqb matched_count 0
  then raise (HTTPException 404 missing)
  else
    oid' ← ensure_object_id id ;
    d ← find_one c {[ "_id" := VOid oid' ]} ;
    mret (serialize_opt d).

(** Edits applied to the sample session. *)
Definition sample_edits : list request :=
  [ UpdateBlockReq B1 tick;
    UpdatePageReq P1 retitle;
    DeleteBlockReq B2;
    CreateBlockReq (CreateBlock.Build P1 "todo" "Demo" (Some false) 5);
    UpdateBlockReq B1 (UpdateBlock.Build (Some "Write the spec") None (Some 3)) ].

(** ** Notions used for the rest of the handlers *)

(** The identifiers that fit the twelve bytes of an [ObjectId]. *)
Definition oid_fits (o : N) : Prop := (o < 16 ^ 24)%N.

(** The generator has not left the twelve-byte range. *)
Definition generator_fits (s : store) : Prop := (next_oid s < 16 ^ 24)%N.

(** The record [insert_one] stores for [d] under the identifier [o]. *)
Definition stored_as (o : N) (d : doc) : doc := <["_id" := VOid o]> d.

(** How often the identifier string [id] occurs among the records of a
    listing. *)
Definition occurrences (id : string) (l : list doc) : nat :=
  List.length (List.filter (λ d, bool_decide (d !! "_id" = Some (VStr id))) l).

(** No record of [l] carries the [ObjectId] [o]. *)
Definition absent_id (o : N) (l : list doc) : Prop :=
  ∀ d, d ∈ l → d !! "_id" ≠ Some (VOid o).

(** The Page [d] refers, through the string in its [workspace_id], to a
    Workspace that the store [s] holds. *)
Definition page_parent_ok (s : store) (d : doc) : Prop :=
  ∃ w o e,
    d !! "workspace_id" = Some (VStr w)
    ∧ Codec.ObjectId w = Some o
    ∧ e ∈ workspace s
    ∧ e !! "_id" = Some (VOid o).

Definition pages_ref (s : store) : Prop :=
  ∀ d, d ∈ page s → page_parent_ok s d.

(** The failures a handler reports on purpose. *)
Definition http_failure (e : exn) : Prop :=
  e = HTTPException 400 "Invalid id"
  ∨ e = HTTPException 404 "Workspace not found"
  ∨ e = HTTPException 404 "Page not found"
  ∨ e = HTTPException 404 "Block not found".

(** The sample session continued until a Page gets an identifier that is
    written with a letter. *)
Definition PA : string := "00000000000000000000000a".
Definition PA_upper : string := "00000000000000000000000A".

Definition sample_letters : state :=
  run [ CreateWorkspaceReq (CreateWorkspace.Build "w5");
        CreateWorkspaceReq (CreateWorkspace.Build "w6");
        CreateWorkspaceReq (CreateWorkspace.Build "w7");
        CreateWorkspaceReq (CreateWorkspace.Build "w8");
        CreateWorkspaceReq (CreateWorkspace.Build "w9");
        CreatePageReq (CreatePage.Build W1 (Some "Lettered")) ] sample.

(** * Properties *)

(** ** Basic facts about filters and the monad *)

Lemma matches_singleton (k : string) (v : value) (d : doc) :
  matches {[ k := v ]} d = bool_decide (d !! k = Some v).
Proof.
  unfold matches. rewrite map_to_list_singleton. simpl.
  by rewrite andb_true_r.
Qed.

Lemma matches_empty (d : doc) : matches ∅ d = true.
Proof. unfold matches. by rewrite map_to_list_empty. Qed.

Ltac run_m :=
  repeat (unfold mbind, M_bind, mret, M_ret, raise, touch, read_coll,
            write_coll, fresh_oid; simpl).

Lemma ensure_object_id_some (id_str : string) (o : N) (st : state) :
  Codec.ObjectId id_str = Some o → ensure_object_id id_str st = (Ok o, st).
Proof. intros H. unfold ensure_object_id. by rewrite H. Qed.

Lemma ensure_object_id_none (id_str : string) (st : state) :
  Codec.ObjectId id_str = None →
  ensure_object_id id_str st = (Raise (HTTPException 400 "Invalid id"), st).
Proof. intros H. unfold ensure_object_id. by rewrite H. Qed.

Lemma find_none_iff (filt : doc) (l : list doc) :
  List.find (matches filt) l = None ↔ ∀ d, d ∈ l → matches filt d = false.
Proof.
  split.
  - intros H d Hd. apply list_elem_of_In in Hd.
    by apply (find_none _ _ H).
  - induction l as [|d l IH]; intros H; simpl; [done|].
    rewrite (H d) by left. apply IH. intros e He. apply H. by right.
Qed.

Lemma delete_first_none (filt : doc) (l : list doc) :
  (∀ d, d ∈ l → matches filt d = false) → delete_first filt l = None.
Proof.
  induction l as [|d l IH]; intros H; simpl; [done|].
  rewrite (H d) by left. rewrite IH; [done|].
  intros e He. apply H. by right.
Qed.

Lemma update_first_none (filt upd : doc) (l : list doc) :
  (∀ d, d ∈ l → matches filt d = false) → update_first filt upd l = None.
Proof.
  induction l as [|d l IH]; intros H; simpl; [done|].
  rewrite (H d) by left. rewrite IH; [done|].
  intros e He. apply H. by right.
Qed.

(** ** Delete Page and its cascade *)

Lemma filter_matches_after_delete (filt : doc) (l : list doc) :
  List.filter (matches filt) (List.filter (λ d, negb (matches filt d)) l) = [].
Proof.
  induction l as [|d l IH]; simpl; [done|].
  destruct (matches filt d) eqn:E; simpl; [done|]. by rewrite E.
Qed.

Lemma delete_page_blocks (page_id : string) (o : N) (st : state) :
  Codec.ObjectId page_id = Some o →
  block (db (delete_page page_id st).2) =
    List.filter (λ d, negb (matches {[ "page_id" := VStr page_id ]} d))
                (block (db st)).
Proof.
  intros Ho. unfold delete_page, delete_one, delete_many.
  run_m. rewrite (ensure_object_id_some _ _ _ Ho). simpl.
  by destruct (delete_first _ _); run_m.
Qed.

Lemma delete_page_invalid_iff (page_id : string) (st : state) :
  (delete_page page_id st).1 = Raise (HTTPException 400 "Invalid id")
  ↔ Codec.ObjectId page_id = None.
Proof.
  unfold delete_page, delete_one, delete_many, ensure_object_id. run_m.
  destruct (Codec.ObjectId page_id); simpl; [|done].
  split; [|done].
  destruct (delete_first _ _); run_m; discriminate.
Qed.

(** C1. For a parseable [page_id], Delete Page removes exactly the Blocks
    whose [page_id] field equals that string and keeps the others; the
    cascade also runs when no Page carries the identifier, in which case the
    call fails with 404 "Page not found"; in both cases List Blocks for that
    [page_id] then returns the empty list.  (By [delete_page_invalid_iff] the
    parseable identifiers are exactly those for which the call does not fail
    with 400 "Invalid id".) *)
Theorem delete_page_cascade (page_id : string) (o : N) (st : state) :
  Codec.ObjectId page_id = Some o →
  let st' := (delete_page page_id st).2 in
  block (db st') =
    List.filter (λ d, negb (has_page_id page_id d)) (block (db st))
  ∧ (∀ d, d ∈ block (db st') → d !! "page_id" ≠ Some (VStr page_id))
  ∧ ((∀ d, d ∈ page (db st) → d !! "_id" ≠ Some (VOid o)) →
     (delete_page page_id st).1 = Raise (HTTPException 404 "Page not found")
     ∧ page (db st') = page (db st))
  ∧ (list_blocks page_id st').1 = Ok (RList []).
Proof.
  intros Ho st'.
  assert (Hb : block (db st') =
    List.filter (λ d, negb (has_page_id page_id d)) (block (db st))).
  { unfold st'. rewrite (delete_page_blocks _ _ _ Ho).
    apply filter_ext. intros d. by rewrite matches_singleton. }
  split; [exact Hb|]. split; [|split].
  - intros d Hd. rewrite Hb in Hd.
    apply list_elem_of_In, filter_In in Hd as [_ Hd].
    unfold has_page_id in Hd. by case_bool_decide.
  - intros Hno. unfold st', delete_page, delete_one, delete_many.
    run_m. rewrite (ensure_object_id_some _ _ _ Ho). simpl.
    rewrite delete_first_none; [done|].
    intros d Hd. rewrite matches_singleton.
    apply bool_decide_eq_false. by apply Hno.
  - unfold list_blocks, get_documents, find, py_sort. run_m.
    fold st'. unfold st' at 1. rewrite (delete_page_blocks _ _ _ Ho).
    by rewrite filter_matches_after_delete.
Qed.

(** ** The stable sort of List Blocks *)

Section sort_facts.
Context {A : Type} (key : A → value).

Local Abbreviation ikey := (int_of_key key).
Local Abbreviation int_key := (has_int_key key).
Local Abbreviation le_key := (λ x y, ikey x ≤ ikey y).

Lemma py_lt_int (x y : A) :
  int_key x → int_key y → py_lt (key x) (key y) = Some (ikey x <? ikey y).
Proof.
  unfold has_int_key, int_of_key. intros [a Ha] [b Hb].
  destruct (key x), (key y); simpl in *; try discriminate; done.
Qed.

Lemma insert_by_spec (x : A) (l : list A) :
  int_key x → Forall int_key l →
  ∃ l1 l2, l = l1 ++ l2
    ∧ insert_by key x l = Some (l1 ++ x :: l2)
    ∧ Forall (λ y, ikey y < ikey x) l1
    ∧ (∀ y, head l2 = Some y → ikey x ≤ ikey y).
Proof.
  intros Hx. induction 1 as [|y l Hy Hl IH]; simpl.
  - exists [], []. repeat split; [constructor|]. intros y; discriminate.
  - rewrite (py_lt_int _ _ Hy Hx).
    destruct (Z.ltb_spec (ikey y) (ikey x)) as [Hlt|Hge].
    + destruct IH as (l1 & l2 & -> & -> & H1 & H2).
      exists (y :: l1), l2. repeat split; [by constructor|done].
    + exists [], (y :: l). repeat split; [constructor|].
      intros ? [= <-]. done.
Qed.

Lemma sort_by_spec (l : list A) :
  Forall int_key l →
  ∃ l', sort_by key l = Some l'
    ∧ l' ≡ₚ l
    ∧ StronglySorted le_key l'
    ∧ ∀ z, filter (λ x, ikey x = z) l' = filter (λ x, ikey x = z) l.
Proof.
  induction 1 as [|x l Hx Hl IH]; simpl.
  - exists []. repeat split; constructor.
  - destruct IH as (l' & -> & Hp & Hs & Hst). simpl.
    assert (Hl' : Forall int_key l') by by rewrite Hp.
    destruct (insert_by_spec x l' Hx Hl') as (l1 & l2 & -> & -> & H1 & H2).
    exists (l1 ++ x :: l2). split; [done|]. split; [|split].
    + rewrite <- Hp. by rewrite Permutation_middle.
    + apply StronglySorted_app in Hs as (H12 & Hs1 & Hs2).
      apply StronglySorted_app. split; [|split; [done|]].
      * intros a b Ha Hb. apply elem_of_cons in Hb as [->|Hb].
        -- rewrite Forall_forall in H1. specialize (H1 a Ha).
           simpl in *. lia.
        -- by apply H12.
      * constructor; [done|].
        destruct l2 as [|y l2]; [constructor|].
        specialize (H2 y eq_refl).
        apply StronglySorted_cons in Hs2 as [Hy _].
        constructor; [done|].
        eapply Forall_impl; [exact Hy|]. simpl. lia.
    + intros z. specialize (Hst z). rewrite filter_app in Hst.
      rewrite filter_app, !filter_cons, <- Hst.
      destruct (decide (ikey x = z)) as [<-|Hne]; [|done].
      replace (filter (λ y, ikey y = ikey x) l1) with (@nil A); [done|].
      symmetry. clear -H1. induction H1 as [|y l1 Hy _ IH]; [done|].
      rewrite filter_cons_False by lia. done.
Qed.
End sort_facts.

Lemma serialize_lookup_ne (k : string) (d : doc) :
  k ≠ "_id" → serialize d !! k = d !! k.
Proof.
  intros Hk. unfold serialize. case_bool_decide; [done|].
  destruct (d !! "_id"); [|done]. by rewrite lookup_insert_ne.
Qed.

Lemma block_position_serialize (d : doc) :
  block_position (serialize d) = block_position d.
Proof.
  unfold block_position, int_of_key, position_key.
  by rewrite serialize_lookup_ne.
Qed.

Lemma filter_fmap_serialize (P : doc → Prop) `{!∀ d, Decision (P d)}
    (l : list doc) :
  (∀ d, P (serialize d) ↔ P d) →
  filter P (serialize <$> l) = serialize <$> filter P l.
Proof.
  intros HP. induction l as [|d l IH]; [done|].
  rewrite fmap_cons, !filter_cons.
  destruct (decide (P (serialize d))) as [H1|H1], (decide (P d)) as [H2|H2];
    rewrite ?IH; try done.
  - destruct H2. by apply HP.
  - destruct H1. by apply HP.
Qed.



Lemma delete_page_cascade_witness :
  Codec.ObjectId P1 = Some 1%N
  ∧ (list_blocks P1 (delete_page P1 sample).2).1 = Ok (RList []).
Proof.
  split; [reflexivity|].
  apply (delete_page_cascade P1 1%N sample). reflexivity.
Defined.

(** ** Creation under a missing parent *)

(** C3. When the [workspace_id] of a Create Page payload parses but no
    Workspace carries that identifier, the call fails with 404 "Workspace
    not found" and the store is what it was (the only access is the lookup);
    likewise Create Block when no Page carries the parsed [page_id]. *)
Theorem create_under_missing_parent (st : state) :
  (∀ (payload : CreatePage.t) (o : N),
     Codec.ObjectId (CreatePage.workspace_id payload) = Some o →
     (∀ d, d ∈ workspace (db st) → d !! "_id" ≠ Some (VOid o)) →
     create_page payload st =
       (Raise (HTTPException 404 "Workspace not found"),
        State (db st) (log st ++ [AFindOne Workspace])))
  ∧ (∀ (payload : CreateBlock.t) (o : N),
     Codec.ObjectId (CreateBlock.page_id payload) = Some o →
     (∀ d, d ∈ page (db st) → d !! "_id" ≠ Some (VOid o)) →
     create_block payload st =
       (Raise (HTTPException 404 "Page not found"),
        State (db st) (log st ++ [AFindOne Page]))).
Proof.
  split; intros payload o Ho Hno.
  - unfold create_page, find_one. run_m.
    rewrite (ensure_object_id_some _ _ _ Ho). simpl.
    replace (List.find _ _) with (@None doc); [done|].
    symmetry. apply find_none_iff. intros d Hd.
    rewrite matches_singleton. apply bool_decide_eq_false. by apply Hno.
  - unfold create_block, find_one. run_m.
    rewrite (ensure_object_id_some _ _ _ Ho). simpl.
    replace (List.find _ _) with (@None doc); [done|].
    symmetry. apply find_none_iff. intros d Hd.
    rewrite matches_singleton. apply bool_decide_eq_false. by apply Hno.
Qed.

Lemma create_under_missing_parent_witness :
  create_page (CreatePage.Build B1 None) sample =
    (Raise (HTTPException 404 "Workspace not found"),
     State (db sample) (log sample ++ [AFindOne Workspace]))
  ∧ create_block (CreateBlock.Build W1 "text" "" (Some false) 0) sample =
    (Raise (HTTPException 404 "Page not found"),
     State (db sample) (log sample ++ [AFindOne Page])).
Proof.
  split.
  - apply (proj1 (create_under_missing_parent sample) _ 2%N); [reflexivity|].
    apply Forall_forall.
    apply (bool_decide_unpack (Forall _ _)). vm_compute. exact I.
  - apply (proj2 (create_under_missing_parent sample) _ 0%N); [reflexivity|].
    apply Forall_forall.
    apply (bool_decide_unpack (Forall _ _)). vm_compute. exact I.
Defined.

(** ** The partial-update mapping *)

Lemma not_none_lookup (d : doc) (k : string) :
  not_none d !! k =
    match d !! k with
    | Some VNone => None
    | o => o
    end.
Proof.
  unfold not_none. rewrite map_lookup_filter.
  destruct (d !! k) as [v|]; simpl; [|done].
  destruct v; simpl; by repeat case_guard.
Qed.

Lemma not_none_never_none (d : doc) (k : string) :
  not_none d !! k ≠ Some VNone.
Proof. rewrite not_none_lookup. by destruct (d !! k) as [[]|]. Qed.

Lemma update_page_mapping (u : UpdatePage.t) (k : string) :
  not_none (UpdatePage.model_dump u) !! k =
    if decide (k = "title") then VStr <$> UpdatePage.title u else None.
Proof.
  rewrite not_none_lookup. unfold UpdatePage.model_dump.
  case_decide as Hk.
  - subst k. rewrite lookup_singleton_eq. by destruct (UpdatePage.title u).
  - by rewrite lookup_singleton_ne.
Qed.

Lemma update_block_mapping (u : UpdateBlock.t) (k : string) :
  not_none (UpdateBlock.model_dump u) !! k =
    if decide (k = "content") then VStr <$> UpdateBlock.content u
    else if decide (k = "checked") then VBool <$> UpdateBlock.checked u
    else if decide (k = "position") then VInt <$> UpdateBlock.position u
    else None.
Proof.
  rewrite not_none_lookup. unfold UpdateBlock.model_dump.
  repeat case_decide; subst; simplify_map_eq.
  - by destruct (UpdateBlock.content u).
  - by destruct (UpdateBlock.checked u).
  - by destruct (UpdateBlock.position u).
  - done.
Qed.

Lemma update_page_mapping_empty (u : UpdatePage.t) :
  not_none (UpdatePage.model_dump u) = ∅ ↔ UpdatePage.title u = None.
Proof.
  rewrite map_empty. split.
  - intros H. specialize (H "title"). rewrite update_page_mapping in H.
    simpl in H. by destruct (UpdatePage.title u).
  - intros H k. rewrite update_page_mapping, H. by case_decide.
Qed.

Lemma update_block_mapping_empty (u : UpdateBlock.t) :
  not_none (UpdateBlock.model_dump u) = ∅
  ↔ UpdateBlock.content u = None ∧ UpdateBlock.checked u = None
    ∧ UpdateBlock.position u = None.
Proof.
  rewrite map_empty. split.
  - intros H.
    pose proof (H "content") as Hc. pose proof (H "checked") as Hk.
    pose proof (H "position") as Hp.
    rewrite update_block_mapping in Hc, Hk, Hp. simpl in *.
    destruct u as [[] [] []]; simpl in *; done.
  - intros (Hc & Hk & Hp) k. rewrite update_block_mapping, Hc, Hk, Hp.
    by repeat case_decide.
Qed.

Lemma update_page_mapping_no_id (u : UpdatePage.t) :
  not_none (UpdatePage.model_dump u) !! "_id" = None.
Proof. by rewrite update_page_mapping. Qed.

Lemma update_block_mapping_no_id (u : UpdateBlock.t) :
  not_none (UpdateBlock.model_dump u) !! "_id" = None.
Proof. by rewrite update_block_mapping. Qed.

Lemma update_page_empty (id : string) (u : UpdatePage.t) (st : state) :
  not_none (UpdatePage.model_dump u) = ∅ →
  update_page id u st = (Ok (RDoc {[ "_id" := VStr id ]}), st).
Proof. intros Hu. unfold update_page. by rewrite bool_decide_eq_true_2. Qed.

Lemma update_block_empty (id : string) (u : UpdateBlock.t) (st : state) :
  not_none (UpdateBlock.model_dump u) = ∅ →
  update_block id u st = (Ok (RDoc {[ "_id" := VStr id ]}), st).
Proof. intros Hu. unfold update_block. by rewrite bool_decide_eq_true_2. Qed.

(** C5. An Update Page or Update Block call whose partial-update mapping is
    empty answers with the bare [{_id: id}] and leaves the whole state, store
    and access log alike, as it was, whatever the identifier string is (it
    is never parsed). *)
Theorem empty_update_short_circuit (id : string) (st : state) :
  (∀ u : UpdatePage.t,
     not_none (UpdatePage.model_dump u) = ∅ →
     update_page id u st = (Ok (RDoc {[ "_id" := VStr id ]}), st))
  ∧ (∀ u : UpdateBlock.t,
     not_none (UpdateBlock.model_dump u) = ∅ →
     update_block id u st = (Ok (RDoc {[ "_id" := VStr id ]}), st)).
Proof.
  split; intros u Hu.
  - by apply update_page_empty.
  - by apply update_block_empty.
Qed.

Lemma empty_update_short_circuit_witness :
  update_page "not-an-id" (UpdatePage.Build None) sample =
    (Ok (RDoc {[ "_id" := VStr "not-an-id" ]}), sample)
  ∧ update_block B1 (UpdateBlock.Build None None None) sample =
    (Ok (RDoc {[ "_id" := VStr B1 ]}), sample).
Proof.
  split.
  - apply (proj1 (empty_update_short_circuit "not-an-id" sample)).
    reflexivity.
  - apply (proj2 (empty_update_short_circuit B1 sample)). reflexivity.
Defined.

(** ** Malformed identifiers *)




(** ** What [update_one] and [find_one] do to a collection *)

Lemma first_match (P : doc → bool) (l : list doc) :
  (∀ d, d ∈ l → P d = false) ∨ ∃ i d, first_at P l i d.
Proof.
  induction l as [|x l IH].
  - left. intros d Hd. by apply elem_of_nil in Hd.
  - destruct (P x) eqn:Hx.
    + right. exists 0%nat, x. repeat split; [done|]. intros j e Hj. lia.
    + destruct IH as [Hno|(i & d & Hi & Hd & Hlt)].
      * left. intros d Hd. apply elem_of_cons in Hd as [->|Hd]; auto.
      * right. exists (S i), d. repeat split; [done..|].
        intros [|j] e Hj He; simpl in He; [by injection He as <-|].
        apply (Hlt j); [lia|done].
Qed.

Lemma first_at_cons_inv (P : doc → bool) (x : doc) (l : list doc) i d :
  first_at P (x :: l) i d →
  (i = 0%nat ∧ d = x ∧ P x = true)
  ∨ (∃ i', i = S i' ∧ P x = false ∧ first_at P l i' d).
Proof.
  intros (Hi & Hd & Hlt). destruct i as [|i]; simpl in Hi.
  - left. by injection Hi as <-.
  - right. exists i. repeat split; [|done..|].
    + apply (Hlt 0%nat); [lia|done].
    + intros j e Hj He. apply (Hlt (S j)); [lia|done].
Qed.

Lemma find_first_at (P : doc → bool) (l : list doc) i d :
  first_at P l i d → List.find P l = Some d.
Proof.
  revert i. induction l as [|x l IH]; intros i H.
  - by destruct H as [H _].
  - apply first_at_cons_inv in H as [(-> & -> & Hx)|(i' & -> & Hx & H)];
      simpl; rewrite Hx; [done|]. by apply (IH i').
Qed.

Lemma update_first_at (filt upd : doc) (l : list doc) i d :
  first_at (matches filt) l i d →
  update_first filt upd l = Some (<[i := upd ∪ d]> l).
Proof.
  revert i. induction l as [|x l IH]; intros i H.
  - by destruct H as [H _].
  - apply first_at_cons_inv in H as [(-> & -> & Hx)|(i' & -> & Hx & H)];
      simpl; rewrite Hx; [done|]. by rewrite (IH i').
Qed.

Lemma delete_first_at (filt : doc) (l : list doc) i d :
  first_at (matches filt) l i d →
  delete_first filt l = Some (delete i l).
Proof.
  revert i. induction l as [|x l IH]; intros i H.
  - by destruct H as [H _].
  - apply first_at_cons_inv in H as [(-> & -> & Hx)|(i' & -> & Hx & H)];
      simpl; rewrite Hx; [done|]. by rewrite (IH i').
Qed.

Lemma first_at_insert (P : doc → bool) (l : list doc) i d d' :
  first_at P l i d → P d' = true → first_at P (<[i := d']> l) i d'.
Proof.
  intros (Hi & Hd & Hlt) Hd'. repeat split; [|done|].
  - apply list_lookup_insert_eq. by eapply lookup_lt_Some.
  - intros j e Hj He. rewrite list_lookup_insert_ne in He by lia.
    by apply (Hlt j).
Qed.

Lemma get_set_coll (c : coll) (l : list doc) (s : store) :
  get_coll c (set_coll c l s) = l.
Proof. by destruct c. Qed.

Lemma update_one_found (c : coll) (filt upd : doc) (st : state) i d :
  first_at (matches filt) (get_coll c (db st)) i d →
  update_one c filt upd st =
    (Ok 1%nat,
     State (set_coll c (<[i := upd ∪ d]> (get_coll c (db st))) (db st))
           (log st ++ [AUpdateOne c])).
Proof.
  intros H. unfold update_one. run_m. by rewrite (update_first_at _ _ _ _ _ H).
Qed.

Lemma update_one_missing (c : coll) (filt upd : doc) (st : state) :
  (∀ d, d ∈ get_coll c (db st) → matches filt d = false) →
  update_one c filt upd st =
    (Ok 0%nat, State (db st) (log st ++ [AUpdateOne c])).
Proof.
  intros H. unfold update_one. run_m. by rewrite update_first_none.
Qed.

Lemma find_one_found (c : coll) (filt : doc) (st : state) i d :
  first_at (matches filt) (get_coll c (db st)) i d →
  find_one c filt st = (Ok (Some d), State (db st) (log st ++ [AFindOne c])).
Proof.
  intros H. unfold find_one. run_m. by rewrite (find_first_at _ _ _ _ H).
Qed.

Lemma matches_id_union (o : N) (upd d : doc) :
  upd !! "_id" = None →
  matches {[ "_id" := VOid o ]} (upd ∪ d) = matches {[ "_id" := VOid o ]} d.
Proof.
  intros H. rewrite !matches_singleton. by rewrite lookup_union_r.
Qed.

(** The two update handlers share their shape; [c], [missing] and [upd]
    are what differs. *)
Section update_tail.
Context (c : coll) (missing : string) (id : string) (upd : doc).

Local Abbreviation tail := (apply_update c missing id upd).

Lemma update_tail_found (st : state) (o : N) i d :
  upd !! "_id" = None →
  Codec.ObjectId id = Some o →
  first_at (matches {[ "_id" := VOid o ]}) (get_coll c (db st)) i d →
  tail st =
    (Ok (RDoc (serialize (upd ∪ d))),
     State (set_coll c (<[i := upd ∪ d]> (get_coll c (db st))) (db st))
           (log st ++ [AUpdateOne c; AFindOne c])).
Proof.
  intros Hupd Ho Hat. unfold apply_update. run_m.
  rewrite (ensure_object_id_some _ _ _ Ho). simpl.
  rewrite (update_one_found _ _ _ _ _ _ Hat). simpl.
  rewrite (ensure_object_id_some _ _ _ Ho). simpl.
  rewrite get_set_coll.
  erewrite find_first_at.
  - simpl. by rewrite <- app_assoc.
  - eapply first_at_insert; [done|].
    rewrite matches_id_union by done. by destruct Hat as (_ & ? & _).
Qed.

Lemma update_tail_missing (st : state) (o : N) :
  Codec.ObjectId id = Some o →
  (∀ d, d ∈ get_coll c (db st) → matches {[ "_id" := VOid o ]} d = false) →
  tail st =
    (Raise (HTTPException 404 missing),
     State (db st) (log st ++ [AUpdateOne c])).
Proof.
  intros Ho Hno. unfold apply_update. run_m.
  rewrite (ensure_object_id_some _ _ _ Ho). simpl.
  by rewrite (update_one_missing _ _ _ _ Hno).
Qed.

Lemma update_tail_invalid (st : state) :
  Codec.ObjectId id = None →
  tail st = (Raise (HTTPException 400 "Invalid id"), st).
Proof.
  intros Ho. unfold apply_update. run_m. by rewrite (ensure_object_id_none _ _ Ho).
Qed.

(** A successful answer pins down what happened. *)
Lemma update_tail_ok (st st' : state) (r : response) :
  upd !! "_id" = None →
  tail st = (Ok r, st') →
  ∃ o i d,
    Codec.ObjectId id = Some o
    ∧ first_at (matches {[ "_id" := VOid o ]}) (get_coll c (db st)) i d
    ∧ r = RDoc (serialize (upd ∪ d))
    ∧ st' = State (set_coll c (<[i := upd ∪ d]> (get_coll c (db st))) (db st))
                  (log st ++ [AUpdateOne c; AFindOne c]).
Proof.
  intros Hupd Hok.
  destruct (Codec.ObjectId id) as [o|] eqn:Ho.
  - destruct (first_match (matches {[ "_id" := VOid o ]})
                (get_coll c (db st))) as [Hno|(i & d & Hat)].
    + rewrite (update_tail_missing _ _ Ho Hno) in Hok. discriminate.
    + rewrite (update_tail_found _ _ _ _ Hupd Ho Hat) in Hok.
      injection Hok as <- <-. by exists o, i, d.
  - rewrite (update_tail_invalid _ Ho) in Hok. discriminate.
Qed.
(** Whatever the outcome, at most one record changes, by [upd]. *)
Lemma update_tail_effect (st : state) :
  upd !! "_id" = None →
  db (tail st).2 = db st
  ∨ ∃ i d,
      get_coll c (db st) !! i = Some d
      ∧ db (tail st).2 =
          set_coll c (<[i := upd ∪ d]> (get_coll c (db st))) (db st).
Proof.
  intros Hupd.
  destruct (Codec.ObjectId id) as [o|] eqn:Ho.
  - destruct (first_match (matches {[ "_id" := VOid o ]})
                (get_coll c (db st))) as [Hno|(i & d & Hat)].
    + left. by rewrite (update_tail_missing _ _ Ho Hno).
    + right. exists i, d. rewrite (update_tail_found _ _ _ _ Hupd Ho Hat).
      by destruct Hat as (? & _).
  - left. by rewrite (update_tail_invalid _ Ho).
Qed.
End update_tail.

Lemma update_page_unfold (id : string) (u : UpdatePage.t) (st : state) :
  not_none (UpdatePage.model_dump u) ≠ ∅ →
  update_page id u st =
    apply_update Page "Page not found" id
      (not_none (UpdatePage.model_dump u)) st.
Proof. intros H. unfold update_page. by rewrite bool_decide_eq_false_2. Qed.

Lemma update_block_unfold (id : string) (u : UpdateBlock.t) (st : state) :
  not_none (UpdateBlock.model_dump u) ≠ ∅ →
  update_block id u st =
    apply_update Block "Block not found" id
      (not_none (UpdateBlock.model_dump u)) st.
Proof. intros H. unfold update_block. by rewrite bool_decide_eq_false_2. Qed.

Lemma first_at_of_elem (o : N) (l : list doc) (d : doc) :
  d ∈ l → d !! "_id" = Some (VOid o) →
  ∃ i e, first_at (matches {[ "_id" := VOid o ]}) l i e.
Proof.
  intros Hd Hid.
  destruct (first_match (matches {[ "_id" := VOid o ]}) l) as [Hno|H]; [|done].
  specialize (Hno d Hd). rewrite matches_singleton in Hno.
  by apply bool_decide_eq_false in Hno.
Qed.

Lemma first_at_id (o : N) (l : list doc) i d :
  first_at (matches {[ "_id" := VOid o ]}) l i d →
  l !! i = Some d ∧ d !! "_id" = Some (VOid o).
Proof.
  intros (Hi & Hd & _). split; [done|].
  rewrite matches_singleton in Hd. by apply bool_decide_eq_true in Hd.
Qed.



(** ** Updating a single field *)



(** ** Explicit nulls *)

Lemma update_block_effect (id : string) (u : UpdateBlock.t) (st : state) :
  db (update_block id u st).2 = db st
  ∨ ∃ i d,
      block (db st) !! i = Some d
      ∧ db (update_block id u st).2 =
          set_coll Block
            (<[i := not_none (UpdateBlock.model_dump u) ∪ d]> (block (db st)))
            (db st).
Proof.
  destruct (decide (not_none (UpdateBlock.model_dump u) = ∅)) as [He|Hne].
  - left. by rewrite (update_block_empty _ _ _ He).
  - rewrite (update_block_unfold _ _ _ Hne).
    apply update_tail_effect, update_block_mapping_no_id.
Qed.

Lemma update_page_effect (id : string) (u : UpdatePage.t) (st : state) :
  db (update_page id u st).2 = db st
  ∨ ∃ i d,
      page (db st) !! i = Some d
      ∧ db (update_page id u st).2 =
          set_coll Page
            (<[i := not_none (UpdatePage.model_dump u) ∪ d]> (page (db st)))
            (db st).
Proof.
  destruct (decide (not_none (UpdatePage.model_dump u) = ∅)) as [He|Hne].
  - left. by rewrite (update_page_empty _ _ _ He).
  - rewrite (update_page_unfold _ _ _ Hne).
    apply update_tail_effect, update_page_mapping_no_id.
Qed.

Lemma stored_none_is_old (upd d : doc) (l : list doc) (i j : nat)
    (d' : doc) (k : string) :
  (∀ k', upd !! k' ≠ Some VNone) →
  l !! i = Some d →
  <[i := upd ∪ d]> l !! j = Some d' →
  d' !! k = Some VNone →
  ∃ e, l !! j = Some e ∧ e !! k = Some VNone.
Proof.
  intros Hupd Hi Hj Hk. destruct (decide (i = j)) as [->|Hne].
  - rewrite list_lookup_insert_eq in Hj by by eapply lookup_lt_Some.
    injection Hj as <-. exists d. split; [done|].
    apply lookup_union_Some_raw in Hk as [Hk|[_ Hk]]; [|done].
    by destruct (Hupd k).
  - rewrite list_lookup_insert_ne in Hj by done. by exists d'.
Qed.

(** C10. In the update payloads an explicit [null] validates to the same
    payload as a field left out; a body whose fields are all [null] or left
    out is the empty update (bare identifier, state untouched); the update
    mapping never carries [None], and a field that is [None] in a stored
    record after an update was already [None] in that record before. *)
Theorem null_field_is_absent :
  (∀ b : UpdatePage.body,
     UpdatePage.model_validate b
     = UpdatePage.model_validate (page_body_without_nulls b))
  ∧ (∀ b : UpdateBlock.body,
     UpdateBlock.model_validate b
     = UpdateBlock.model_validate (block_body_without_nulls b))
  ∧ (∀ (id : string) (st : state) (b : UpdatePage.body),
     valueless (UpdatePage.body_title b) = true →
     update_page id (UpdatePage.model_validate b) st
     = (Ok (RDoc {[ "_id" := VStr id ]}), st))
  ∧ (∀ (id : string) (st : state) (b : UpdateBlock.body),
     valueless (UpdateBlock.body_content b) = true →
     valueless (UpdateBlock.body_checked b) = true →
     valueless (UpdateBlock.body_position b) = true →
     update_block id (UpdateBlock.model_validate b) st
     = (Ok (RDoc {[ "_id" := VStr id ]}), st))
  ∧ (∀ (b : UpdatePage.body) (k : string),
     not_none (UpdatePage.model_dump (UpdatePage.model_validate b)) !! k
     ≠ Some VNone)
  ∧ (∀ (b : UpdateBlock.body) (k : string),
     not_none (UpdateBlock.model_dump (UpdateBlock.model_validate b)) !! k
     ≠ Some VNone)
  ∧ (∀ (id : string) (b : UpdatePage.body) (st : state) j d' k,
     page (db (update_page id (UpdatePage.model_validate b) st).2) !! j
       = Some d' →
     d' !! k = Some VNone →
     ∃ d, page (db st) !! j = Some d ∧ d !! k = Some VNone)
  ∧ (∀ (id : string) (b : UpdateBlock.body) (st : state) j d' k,
     block (db (update_block id (UpdateBlock.model_validate b) st).2) !! j
       = Some d' →
     d' !! k = Some VNone →
     ∃ d, block (db st) !! j = Some d ∧ d !! k = Some VNone).
Proof.
  repeat split.
  - intros [[]]; reflexivity.
  - intros [[] [] []]; reflexivity.
  - intros id st [t] Ht. apply update_page_empty.
    apply update_page_mapping_empty. by destruct t.
  - intros id st [c k p] Hc Hk Hp. apply update_block_empty.
    apply update_block_mapping_empty. by destruct c, k, p.
  - intros b k. apply not_none_never_none.
  - intros b k. apply not_none_never_none.
  - intros id b st j d' k Hj Hk.
    destruct (update_page_effect id (UpdatePage.model_validate b) st)
      as [E|(i & d & Hi & E)].
    + exists d'. split; [|exact Hk].
      exact (eq_ind _ (λ s, page s !! j = Some d') Hj _ E).
    + pose proof (eq_ind _ (λ s, page s !! j = Some d') Hj _ E) as Hj'.
      simpl in Hj'.
      eapply stored_none_is_old; [|exact Hi|exact Hj'|exact Hk].
      intros k'. apply not_none_never_none.
  - intros id b st j d' k Hj Hk.
    destruct (update_block_effect id (UpdateBlock.model_validate b) st)
      as [E|(i & d & Hi & E)].
    + exists d'. split; [|exact Hk].
      exact (eq_ind _ (λ s, block s !! j = Some d') Hj _ E).
    + pose proof (eq_ind _ (λ s, block s !! j = Some d') Hj _ E) as Hj'.
      simpl in Hj'.
      eapply stored_none_is_old; [|exact Hi|exact Hj'|exact Hk].
      intros k'. apply not_none_never_none.
Qed.

Lemma null_field_is_absent_witness :
  update_page P1 (UpdatePage.model_validate (UpdatePage.Body Null)) sample
    = (Ok (RDoc {[ "_id" := VStr P1 ]}), sample)
  ∧ update_block B1
      (UpdateBlock.model_validate (UpdateBlock.Body Null Absent Null)) sample
    = (Ok (RDoc {[ "_id" := VStr B1 ]}), sample)
  ∧ (∃ d, page (db sample_nulls) !! 1%nat = Some d
          ∧ d !! "title" = Some VNone)
  ∧ (∃ d, block (db sample_nulls) !! 3%nat = Some d
          ∧ d !! "checked" = Some VNone).
Proof.
  destruct null_field_is_absent as (_ & _ & Hp & Hb & _ & _ & Hsp & Hsb).
  split; [|split; [|split]].
  - apply Hp. reflexivity.
  - apply Hb; reflexivity.
  - apply (Hsp P1 (UpdatePage.Body (Given "Retro")) sample_nulls 1%nat
             (default ∅ (page (db sample_nulls) !! 1%nat)) "title").
    + vm_compute. reflexivity.
    + vm_compute. reflexivity.
  - apply (Hsb B1 (UpdateBlock.Body Absent (Given true) Null) sample_nulls
             3%nat (default ∅ (block (db sample_nulls) !! 3%nat)) "checked").
    + vm_compute. reflexivity.
    + vm_compute. reflexivity.
Defined.

(** ** List Pages *)

(** C9, as the claim states it, fails: for the supplied string [""] the
    answer is not the Pages whose [workspace_id] equals [""] (there is none)
    but every Page. *)
Lemma list_pages_empty_string_lists_all :
  List.filter (has_workspace_id "") (page (db sample)) = []
  ∧ (list_pages (Some "") sample).1 = Ok (RList (serialize <$> page (db sample)))
  ∧ (list_pages (Some "") sample).1
    ≠ Ok (RList (serialize <$>
                   List.filter (has_workspace_id "") (page (db sample)))).
Proof.
  split; [reflexivity|]. split; [reflexivity|].
  vm_compute. discriminate.
Qed.

(** C9, amended. For a supplied non-empty [workspace_id] List Pages answers
    with exactly the stored Pages whose [workspace_id] field equals that
    string, in store order, without parsing it and without looking at the
    Workspaces (the only access is one [find] on the Pages), and it never
    raises; when [workspace_id] is left out, or is the empty string, it
    answers with every Page. *)
Theorem list_pages_filter (st : state) :
  (∀ w : string, w ≠ "" →
     list_pages (Some w) st =
       (Ok (RList (serialize <$>
                     List.filter (has_workspace_id w) (page (db st)))),
        State (db st) (log st ++ [AFind Page])))
  ∧ list_pages None st =
      (Ok (RList (serialize <$> page (db st))),
       State (db st) (log st ++ [AFind Page]))
  ∧ list_pages (Some "") st =
      (Ok (RList (serialize <$> page (db st))),
       State (db st) (log st ++ [AFind Page])).
Proof.
  assert (Hall : List.filter (matches ∅) (page (db st)) = page (db st)).
  { induction (page (db st)) as [|d l IH]; [done|].
    simpl. rewrite matches_empty. by rewrite IH. }
  split; [|split].
  - intros [|c s] Hw; [done|].
    unfold list_pages, get_documents, find. run_m.
    assert (E : List.filter (matches {[ "workspace_id" := VStr (String c s) ]})
                  (page (db st))
                = List.filter (has_workspace_id (String c s)) (page (db st))).
    { apply filter_ext. intros d. by rewrite matches_singleton. }
    by rewrite E.
  - unfold list_pages, get_documents, find. run_m. by rewrite Hall.
  - unfold list_pages, get_documents, find. run_m. by rewrite Hall.
Qed.

Lemma list_pages_filter_witness :
  list_pages (Some "not-an-id") sample =
    (Ok (RList []), State (db sample) (log sample ++ [AFind Page]))
  ∧ list_pages (Some W1) sample =
    (Ok (RList (serialize <$> page (db sample))),
     State (db sample) (log sample ++ [AFind Page])).
Proof.
  split.
  - apply (proj1 (list_pages_filter sample) "not-an-id"). discriminate.
  - apply (proj1 (list_pages_filter sample) W1). discriminate.
Defined.

(** ** Immutable fields along any sequence of requests *)

Lemma id_not_updatable (c : coll) : "_id" ∉ updatable c.
Proof.
  destruct c; simpl; intros H;
    repeat (apply elem_of_cons in H as [H|H]; [discriminate|]);
    by apply elem_of_nil in H.
Qed.

Lemma same_fixed_refl (c : coll) (d : doc) : same_fixed c d d.
Proof. by intros k Hk. Qed.

Lemma same_fixed_trans (c : coll) (d1 d2 d3 : doc) :
  same_fixed c d1 d2 → same_fixed c d2 d3 → same_fixed c d1 d3.
Proof. intros H12 H23 k Hk. by rewrite (H23 k Hk), (H12 k Hk). Qed.

Lemma same_fixed_union (c : coll) (upd d : doc) :
  update_ok c upd → same_fixed c d (upd ∪ d).
Proof. intros [Hupd _] k Hk. apply lookup_union_r. by apply Hupd. Qed.

Lemma update_ok_no_id (c : coll) (upd : doc) :
  update_ok c upd → upd !! "_id" = None.
Proof. intros [Hupd _]. apply Hupd, id_not_updatable. Qed.

Lemma oid_from_mono (n n' : N) (d : doc) :
  (n ≤ n')%N → oid_from n' d → oid_from n d.
Proof. intros Hn (o & Ho & Hle). exists o. split; [done|lia]. Qed.

Lemma oid_below_mono (n n' : N) (d : doc) :
  (n ≤ n')%N → oid_below n d → oid_below n' d.
Proof. intros Hn (o & Ho & Hlt). exists o. split; [done|lia]. Qed.

Lemma evolves_refl (c : coll) (n : N) (l : list doc) : evolves c n l l.
Proof. intros d Hd. left. exists d. split; [done|apply same_fixed_refl]. Qed.

Lemma evolves_trans (c : coll) (n n' : N) (l1 l2 l3 : list doc) :
  (n ≤ n')%N → evolves c n l1 l2 → evolves c n' l2 l3 → evolves c n l1 l3.
Proof.
  intros Hn H12 H23 d3 Hd3.
  destruct (H23 d3 Hd3) as [(d2 & Hd2 & Hs23)|Hnew].
  - destruct (H12 d2 Hd2) as [(d1 & Hd1 & Hs12)|(o & Ho & Hle)].
    + left. exists d1. split; [done|]. by eapply same_fixed_trans.
    + right. exists o. split; [|done].
      by rewrite (Hs23 "_id" (id_not_updatable c)).
  - right. by eapply oid_from_mono.
Qed.

Lemma evolves_sublist (c : coll) (n : N) (l l' : list doc) :
  l' `sublist_of` l → evolves c n l l'.
Proof.
  intros Hsub d Hd. left. exists d. split; [|apply same_fixed_refl].
  by eapply elem_of_sublist.
Qed.

Lemma evolves_insert (c : coll) (n : N) (l : list doc) (i : nat)
    (d upd : doc) :
  l !! i = Some d → update_ok c upd → evolves c n l (<[i := upd ∪ d]> l).
Proof.
  intros Hi Hupd d' Hd'. left.
  apply list_elem_of_lookup in Hd' as [j Hj].
  destruct (decide (i = j)) as [->|Hne].
  - rewrite list_lookup_insert_eq in Hj by by eapply lookup_lt_Some.
    injection Hj as <-. exists d.
    split; [by eapply list_elem_of_lookup_2|by apply same_fixed_union].
  - rewrite list_lookup_insert_ne in Hj by done. exists d'.
    split; [by eapply list_elem_of_lookup_2|apply same_fixed_refl].
Qed.

Lemma evolves_snoc (c : coll) (n : N) (l : list doc) (d : doc) :
  evolves c n l (l ++ [ <["_id" := VOid n]> d ]).
Proof.
  intros d' Hd'. apply elem_of_app in Hd' as [Hd'|Hd'].
  - left. exists d'. split; [done|apply same_fixed_refl].
  - right. apply list_elem_of_singleton in Hd' as ->.
    exists n. split; [apply lookup_insert_eq|lia].
Qed.

Lemma filter_sublist (P : doc → bool) (l : list doc) :
  List.filter P l `sublist_of` l.
Proof.
  induction l as [|d l IH]; simpl; [constructor|].
  destruct (P d); by constructor.
Qed.

Lemma delete_first_sublist (filt : doc) (l l' : list doc) :
  delete_first filt l = Some l' → l' `sublist_of` l.
Proof.
  revert l'. induction l as [|d l IH]; intros l' H; simpl in H; [done|].
  destruct (matches filt d).
  - injection H as <-. by constructor.
  - destruct (delete_first filt l) as [l0|]; [|done].
    injection H as <-. constructor. by apply IH.
Qed.

Lemma update_first_inv (filt upd : doc) (l l' : list doc) :
  update_first filt upd l = Some l' →
  ∃ i d, l !! i = Some d ∧ l' = <[i := upd ∪ d]> l.
Proof.
  revert l'. induction l as [|d l IH]; intros l' H; simpl in H; [done|].
  destruct (matches filt d).
  - injection H as <-. by exists 0%nat, d.
  - destruct (update_first filt upd l) as [l0|]; [|done].
    injection H as <-. destruct (IH l0 eq_refl) as (i & e & Hi & ->).
    by exists (S i), e.
Qed.

(** Invariants of one collection under the three kinds of change. *)

Lemma ids_ok_coll_sublist (n : N) (l l' : list doc) :
  l' `sublist_of` l → ids_ok_coll n l → ids_ok_coll n l'.
Proof.
  intros Hsub [Hnd Hb]. split.
  - eapply sublist_NoDup; [exact Hnd|]. unfold ids. by apply fmap_sublist.
  - rewrite Forall_forall in *. intros d Hd.
    apply Hb. by eapply elem_of_sublist.
Qed.

Lemma ids_ok_coll_insert (n : N) (l : list doc) (i : nat) (d upd : doc) :
  l !! i = Some d → upd !! "_id" = None →
  ids_ok_coll n l → ids_ok_coll n (<[i := upd ∪ d]> l).
Proof.
  intros Hi Hupd [Hnd Hb].
  assert (Hid : (upd ∪ d) !! "_id" = d !! "_id") by by apply lookup_union_r.
  split.
  - unfold ids in *. rewrite list_fmap_insert. simpl. rewrite Hid.
    rewrite list_insert_id; [done|]. by rewrite list_lookup_fmap, Hi.
  - apply Forall_insert; [done|].
    rewrite Forall_forall in Hb.
    destruct (Hb d) as (o & Ho & Hlt); [by eapply list_elem_of_lookup_2|].
    exists o. split; [congruence|done].
Qed.

Lemma ids_ok_coll_mono (n n' : N) (l : list doc) :
  (n ≤ n')%N → ids_ok_coll n l → ids_ok_coll n' l.
Proof.
  intros Hn [Hnd Hb]. split; [done|].
  eapply Forall_impl; [exact Hb|]. intros d. by apply oid_below_mono.
Qed.

Lemma ids_ok_coll_snoc (n : N) (l : list doc) (d : doc) :
  ids_ok_coll n l → ids_ok_coll (N.succ n) (l ++ [ <["_id" := VOid n]> d ]).
Proof.
  intros [Hnd Hb]. split.
  - unfold ids in *. rewrite fmap_app. apply NoDup_app.
    split; [done|]. split; [|apply NoDup_singleton].
    intros x Hx Hx'. simpl in Hx'.
    apply list_elem_of_singleton in Hx'. rewrite lookup_insert_eq in Hx'.
    subst x. apply list_elem_of_fmap in Hx as (e & He & Hel).
    rewrite Forall_forall in Hb. destruct (Hb e Hel) as (o & Ho & Hlt).
    rewrite Ho in He. injection He as ->. lia.
  - apply Forall_app. split.
    + eapply Forall_impl; [exact Hb|]. intros e. apply oid_below_mono. lia.
    + constructor; [|constructor].
      exists n. split; [apply lookup_insert_eq|lia].
Qed.

Lemma step_ok_refl (s : store) : step_ok s s.
Proof.
  split; [lia|]. split; [done|]. split; [done|].
  intros c. apply evolves_refl.
Qed.

Lemma step_ok_trans (s1 s2 s3 : store) :
  step_ok s1 s2 → step_ok s2 s3 → step_ok s1 s3.
Proof.
  intros (Hn12 & Hi12 & Hp12 & He12) (Hn23 & Hi23 & Hp23 & He23).
  split; [lia|]. split; [auto|]. split; [auto|].
  intros c. by eapply evolves_trans.
Qed.

Lemma step_ok_set_coll (c : coll) (l' : list doc) (s : store) :
  (ids_ok_coll (next_oid s) (get_coll c s) → ids_ok_coll (next_oid s) l') →
  (c = Block → Forall int_position (block s) → Forall int_position l') →
  evolves c (next_oid s) (get_coll c s) l' →
  step_ok s (set_coll c l' s).
Proof.
  intros Hids Hpos Hev. split; [destruct c; simpl; lia|].
  split; [|split].
  - intros Hok c'. specialize (Hids (Hok c)). specialize (Hok c').
    destruct c, c'; simpl in *; done.
  - unfold positions_ok. destruct c; simpl; auto.
  - intros c'. destruct c, c'; simpl in *; done || apply evolves_refl.
Qed.

Lemma int_position_with_id (v : value) (d : doc) :
  int_position d → int_position (<["_id" := v]> d).
Proof.
  unfold int_position, has_int_key, position_key.
  by rewrite lookup_insert_ne.
Qed.

Lemma int_position_union (c : coll) (upd d : doc) :
  update_ok c upd → int_position d → int_position (upd ∪ d).
Proof.
  intros [_ Hupd] Hd. unfold int_position, has_int_key, position_key in *.
  rewrite lookup_union.
  destruct (upd !! "position") as [v|] eqn:Hv.
  - specialize (Hupd v eq_refl). by destruct (d !! "position").
  - by destruct (d !! "position").
Qed.

Section preserves.
Context {A B : Type}.

Lemma preserves_ret (a : A) : preserves (mret a : M A).
Proof. intros st. apply step_ok_refl. Qed.

Lemma preserves_raise (e : exn) : preserves (raise e : M A).
Proof. intros st. apply step_ok_refl. Qed.

Lemma preserves_bind (m : M A) (k : A → M B) :
  preserves m → (∀ a, preserves (k a)) → preserves (m ≫= k).
Proof.
  intros Hm Hk st. specialize (Hm st). unfold mbind, M_bind.
  destruct (m st) as [[a|e] st']; simpl in *; [|done].
  eapply step_ok_trans; [exact Hm|apply Hk].
Qed.
End preserves.

Lemma preserves_ensure_object_id (id_str : string) :
  preserves (ensure_object_id id_str).
Proof.
  unfold ensure_object_id. destruct (Codec.ObjectId id_str);
    [apply preserves_ret|apply preserves_raise].
Qed.

Lemma preserves_find (c : coll) (filt : doc) : preserves (find c filt).
Proof. intros st. apply step_ok_refl. Qed.

Lemma preserves_find_one (c : coll) (filt : doc) : preserves (find_one c filt).
Proof. intros st. apply step_ok_refl. Qed.

Lemma preserves_py_sort (key : doc → value) (l : list doc) :
  preserves (py_sort key l).
Proof.
  unfold py_sort. destruct (sort_by key l);
    [apply preserves_ret|apply preserves_raise].
Qed.

Lemma preserves_update_one (c : coll) (filt upd : doc) :
  update_ok c upd → preserves (update_one c filt upd).
Proof.
  intros Hupd st. unfold update_one. run_m.
  destruct (update_first filt upd (get_coll c (db st))) as [l'|] eqn:E;
    simpl; [|apply step_ok_refl].
  apply update_first_inv in E as (i & d & Hi & ->).
  apply step_ok_set_coll.
  - apply ids_ok_coll_insert; [done|]. by eapply update_ok_no_id.
  - intros -> Hpos. simpl in Hi. apply Forall_insert; [done|].
    apply (int_position_union Block); [done|].
    rewrite Forall_forall in Hpos. apply Hpos.
    by eapply list_elem_of_lookup_2.
  - by apply evolves_insert.
Qed.

Lemma preserves_delete_one (c : coll) (filt : doc) :
  preserves (delete_one c filt).
Proof.
  intros st. unfold delete_one. run_m.
  destruct (delete_first filt (get_coll c (db st))) as [l'|] eqn:E;
    simpl; [|apply step_ok_refl].
  apply delete_first_sublist in E.
  apply step_ok_set_coll.
  - by apply ids_ok_coll_sublist.
  - intros -> Hpos. simpl in E. rewrite Forall_forall in *.
    intros d Hd. apply Hpos. by eapply elem_of_sublist.
  - by apply evolves_sublist.
Qed.

Lemma preserves_delete_many (c : coll) (filt : doc) :
  preserves (delete_many c filt).
Proof.
  intros st. unfold delete_many. run_m.
  pose proof (filter_sublist (λ d, negb (matches filt d))
                (get_coll c (db st))) as E.
  apply step_ok_set_coll.
  - by apply ids_ok_coll_sublist.
  - intros -> Hpos. simpl in E. rewrite Forall_forall in *.
    intros d Hd. apply Hpos. by eapply elem_of_sublist.
  - by apply evolves_sublist.
Qed.

Lemma preserves_insert_one (c : coll) (d : doc) :
  (c = Block → int_position d) → preserves (insert_one c d).
Proof.
  intros Hd st. unfold insert_one. run_m.
  destruct st as [[ws pg bl n] lg]. simpl.
  split; [destruct c; simpl; lia|]. split; [|split].
  - intros Hok c'.
    pose proof (Hok c') as Hc'. pose proof (Hok c) as Hc. simpl in Hc, Hc'.
    apply (ids_ok_coll_snoc _ _ d) in Hc.
    apply (ids_ok_coll_mono n (N.succ n)) in Hc'; [|lia].
    destruct c, c'; simpl in *; done.
  - unfold positions_ok. destruct c; simpl; try done.
    intros Hpos. apply Forall_app. split; [done|].
    constructor; [|constructor]. by apply int_position_with_id, Hd.
  - intros c'. destruct c, c'; simpl;
      apply evolves_refl || apply evolves_snoc.
Qed.

Lemma update_page_mapping_ok (u : UpdatePage.t) :
  update_ok Page (not_none (UpdatePage.model_dump u)).
Proof.
  split.
  - intros k Hk. rewrite update_page_mapping. case_decide; [|done].
    subst k. destruct Hk. simpl. left.
  - intros v. by rewrite update_page_mapping.
Qed.

Lemma update_block_mapping_ok (u : UpdateBlock.t) :
  update_ok Block (not_none (UpdateBlock.model_dump u)).
Proof.
  split.
  - intros k Hk. rewrite update_block_mapping.
    repeat case_decide; try done; subst k; destruct Hk; simpl;
      repeat (left || right).
  - intros v. rewrite update_block_mapping. simpl.
    destruct (UpdateBlock.position u); [|done]. by intros [= <-].
Qed.

Lemma create_block_dump_position (p : CreateBlock.t) :
  int_position (CreateBlock.model_dump p).
Proof.
  unfold int_position, has_int_key, position_key, CreateBlock.model_dump.
  by simplify_map_eq.
Qed.

Ltac preserves_step :=
  first
    [ apply preserves_ret
    | apply preserves_raise
    | apply preserves_ensure_object_id
    | apply preserves_find
    | apply preserves_find_one
    | apply preserves_py_sort
    | apply preserves_delete_one
    | apply preserves_delete_many
    | apply preserves_update_one; [apply update_page_mapping_ok]
    | apply preserves_update_one; [apply update_block_mapping_ok]
    | apply preserves_insert_one;
        first [ discriminate | intros _; apply create_block_dump_position ]
    | apply preserves_bind; [|intros ?]
    | match goal with
      | |- preserves (if ?b then _ else _) => destruct b
      | |- preserves (match ?o with Some _ => _ | None => _ end) => destruct o
      end ].

Lemma handle_preserves (r : request) : preserves (handle r).
Proof.
  destruct r; simpl;
    unfold create_workspace, list_workspaces, create_page, list_pages,
      update_page, delete_page, create_block, list_blocks, update_block,
      delete_block, create_document, get_documents;
    repeat preserves_step.
Qed.

Lemma run_step_ok (rs : list request) (st : state) :
  step_ok (db st) (db (run rs st)).
Proof.
  revert st. induction rs as [|r rs IH]; intros st; simpl.
  - apply step_ok_refl.
  - eapply step_ok_trans; [apply handle_preserves|apply IH].
Qed.

Lemma ids_ok_init : ids_ok (db init).
Proof. intros c. destruct c; split; constructor. Qed.

Lemma positions_ok_init : positions_ok (db init).
Proof. constructor. Qed.

(** Every state the API can reach from the empty store has distinct,
    generator-issued identifiers and integer positions. *)
Lemma reachable_ok (rs : list request) :
  ids_ok (db (run rs init)) ∧ positions_ok (db (run rs init)).
Proof.
  destruct (run_step_ok rs init) as (_ & Hids & Hpos & _).
  split; [apply Hids, ids_ok_init|apply Hpos, positions_ok_init].
Qed.

Lemma same_id_same_record (n : N) (l : list doc) (d e : doc) :
  ids_ok_coll n l → d ∈ l → e ∈ l → d !! "_id" = e !! "_id" → d = e.
Proof.
  intros [Hnd _] Hd He Hid.
  apply list_elem_of_lookup in Hd as [i Hi].
  apply list_elem_of_lookup in He as [j Hj].
  assert (i = j) as ->; [|congruence].
  eapply NoDup_lookup; [exact Hnd|..]; unfold ids; rewrite list_lookup_fmap.
  - by rewrite Hi.
  - rewrite Hj. simpl. by rewrite Hid.
Qed.

Lemma survivor_same_fixed (c : coll) (rs : list request) (st : state)
    (d d' : doc) :
  ids_ok (db st) →
  d ∈ get_coll c (db st) → d' ∈ get_coll c (db (run rs st)) →
  d' !! "_id" = d !! "_id" →
  same_fixed c d d'.
Proof.
  intros Hok Hd Hd' Hid.
  destruct (run_step_ok rs st) as (_ & _ & _ & Hev).
  destruct (Hev c d' Hd') as [(e & He & Hfix)|(o & Ho & Hle)].
  - replace d with e; [done|].
    eapply same_id_same_record; [apply (Hok c)|done..|].
    by rewrite <- Hid, (Hfix "_id" (id_not_updatable c)).
  - destruct (Hok c) as [_ Hb]. rewrite Forall_forall in Hb.
    destruct (Hb d Hd) as (o' & Ho' & Hlt). rewrite Hid, Ho' in Ho.
    injection Ho as ->. lia.
Qed.

(** C8. Along every sequence of requests, from a store whose identifiers
    are distinct and generator-issued (every store the API reaches is one),
    a Page that is still stored differs from what it was at most in [title],
    so its [workspace_id] is the original one, and a Block that is still
    stored differs at most in [content], [checked] and [position], so its
    [page_id] and [type] are the original ones; records are identified by
    their [_id], and the identifiers stay distinct. *)
Theorem immutable_fields_invariant (rs : list request) (st : state) :
  ids_ok (db st) →
  let st' := run rs st in
  (∀ d d', d ∈ page (db st) → d' ∈ page (db st') →
     d' !! "_id" = d !! "_id" →
     d' !! "workspace_id" = d !! "workspace_id"
     ∧ ∀ k, k ≠ "title" → d' !! k = d !! k)
  ∧ (∀ d d', d ∈ block (db st) → d' ∈ block (db st') →
     d' !! "_id" = d !! "_id" →
     d' !! "page_id" = d !! "page_id"
     ∧ d' !! "type" = d !! "type"
     ∧ ∀ k, k ≠ "content" → k ≠ "checked" → k ≠ "position" →
            d' !! k = d !! k)
  ∧ ids_ok (db st').
Proof.
  intros Hok st'. split; [|split].
  - intros d d' Hd Hd' Hid.
    pose proof (survivor_same_fixed Page rs st d d' Hok Hd Hd' Hid) as Hfix.
    assert (Hk : ∀ k, k ≠ "title" → d' !! k = d !! k).
    { intros k Hk. apply Hfix. simpl. intros H.
      apply list_elem_of_singleton in H. done. }
    split; [by apply Hk|done].
  - intros d d' Hd Hd' Hid.
    pose proof (survivor_same_fixed Block rs st d d' Hok Hd Hd' Hid) as Hfix.
    assert (Hk : ∀ k, k ≠ "content" → k ≠ "checked" → k ≠ "position" →
                      d' !! k = d !! k).
    { intros k H1 H2 H3. apply Hfix. simpl. intros H.
      repeat (apply elem_of_cons in H as [H|H]; [done|]).
      by apply elem_of_nil in H. }
    split; [by apply Hk|]. split; [by apply Hk|done].
  - by apply (run_step_ok rs st).
Qed.

Lemma immutable_fields_invariant_witness :
  ids_ok (db sample)
  ∧ (∀ d d', d ∈ page (db sample) →
       d' ∈ page (db (run sample_edits sample)) →
       d' !! "_id" = d !! "_id" →
       d' !! "workspace_id" = d !! "workspace_id"
       ∧ ∀ k, k ≠ "title" → d' !! k = d !! k)
  ∧ (∀ d d', d ∈ block (db sample) →
       d' ∈ block (db (run sample_edits sample)) →
       d' !! "_id" = d !! "_id" →
       d' !! "page_id" = d !! "page_id"
       ∧ d' !! "type" = d !! "type"
       ∧ ∀ k, k ≠ "content" → k ≠ "checked" → k ≠ "position" →
              d' !! k = d !! k)
  ∧ ids_ok (db (run sample_edits sample)).
Proof.
  assert (H : ids_ok (db sample)).
  { intros c. destruct c; (split; [vm_compute|]).
    - apply NoDup_singleton.
    - repeat constructor. exists 0%N. split; [reflexivity|reflexivity].
    - apply NoDup_singleton.
    - repeat constructor. exists 1%N. split; [reflexivity|reflexivity].
    - repeat (apply NoDup_cons; split;
                [intros Hin;
                 repeat (apply elem_of_cons in Hin as [Hin|Hin];
                           [discriminate|]);
                 by apply elem_of_nil in Hin|]).
      apply NoDup_nil. done.
    - repeat constructor;
        [exists 2%N|exists 3%N|exists 4%N]; split; reflexivity. }
  split; [exact H|].
  exact (immutable_fields_invariant sample_edits sample H).
Defined.

(** ** The store keeps Blocks in the order of their creation *)

Lemma create_block_appends (payload : CreateBlock.t) (st st' : state)
    (r : response) :
  create_block payload st = (Ok r, st') →
  ∃ d, block (db st') = block (db st) ++ [d]
       ∧ d !! "page_id" = Some (VStr (CreateBlock.page_id payload))
       ∧ d !! "position" = Some (VInt (CreateBlock.position payload)).
Proof.
  unfold create_block, find_one, create_document, insert_one. run_m.
  destruct (ensure_object_id _ st) as [[o|e] st1] eqn:E; [|discriminate].
  unfold ensure_object_id in E.
  destruct (Codec.ObjectId _); [|discriminate]. injection E as -> <-.
  simpl. destruct (List.find _ _); [|discriminate].
  run_m. intros [= <- <-]. simpl. eexists. split; [done|].
  unfold CreateBlock.model_dump. by simplify_map_eq.
Qed.

(** On every reachable state the stored positions are integers, so the
    premise of [list_blocks_sorted_stable] holds there. *)
Lemma reachable_int_positions (rs : list request) (page_id : string) :
  Forall int_position
    (List.filter (has_page_id page_id) (block (db (run rs init)))).
Proof.
  destruct (reachable_ok rs) as [_ Hpos]. unfold positions_ok in Hpos.
  rewrite Forall_forall in *. intros d Hd. apply Hpos.
  eapply elem_of_sublist; [exact Hd|apply filter_sublist].
Qed.

(** * The rest of the handlers *)

Arguments Codec.oid_str : simpl never.
Arguments Codec.ObjectId : simpl never.

(** ** [serialize] *)

Lemma serialize_id (d : doc) :
  serialize d !! "_id" = (λ v, VStr (py_str v)) <$> d !! "_id".
Proof.
  unfold serialize. case_bool_decide as He.
  - subst d. by rewrite lookup_empty.
  - destruct (d !! "_id") as [v|] eqn:E.
    + by rewrite lookup_insert_eq.
    + by rewrite E.
Qed.

(** X1. [serialize] answers with a record that has the same fields as its
    argument, each with the same value, except that [_id], when present, is
    replaced by its string form; a record without [_id], the empty record
    included, comes back as it is. *)
Theorem serialize_fields (d : doc) :
  serialize d !! "_id" = (λ v, VStr (py_str v)) <$> d !! "_id"
  ∧ (∀ k, k ≠ "_id" → serialize d !! k = d !! k)
  ∧ dom (serialize d) = dom d
  ∧ (d !! "_id" = None → serialize d = d).
Proof.
  split; [apply serialize_id|]. split; [intros k; apply serialize_lookup_ne|].
  split.
  - apply set_eq. intros k. rewrite !elem_of_dom.
    destruct (decide (k = "_id")) as [->|Hk].
    + rewrite serialize_id. by rewrite fmap_is_Some.
    + by rewrite serialize_lookup_ne.
  - intros Hid. apply map_eq. intros k.
    destruct (decide (k = "_id")) as [->|Hk].
    + by rewrite serialize_id, Hid.
    + by rewrite serialize_lookup_ne.
Qed.

Lemma serialize_fields_witness :
  serialize (<["name" := VStr "Eng"]> ∅) = <["name" := VStr "Eng"]> ∅.
Proof.
  apply (serialize_fields (<["name" := VStr "Eng"]> ∅)). reflexivity.
Defined.

(** X2. [serialize] is idempotent: a record that was serialized once is
    not changed by serializing it again, and its [_id] is never an
    [ObjectId]. *)
Theorem serialize_idempotent (d : doc) :
  serialize (serialize d) = serialize d
  ∧ ∀ o, serialize d !! "_id" ≠ Some (VOid o).
Proof.
  split.
  - apply map_eq. intros k. destruct (decide (k = "_id")) as [->|Hk].
    + rewrite !serialize_id. by destruct (d !! "_id").
    + by rewrite !serialize_lookup_ne.
  - intros o. rewrite serialize_id. by destruct (d !! "_id").
Qed.

(** ** The identifier codec *)

Lemma hex_val_hex_char (d : N) :
  (d < 16)%N → Codec.hex_val (Codec.hex_char d) = Some d.
Proof.
  intros Hd. rewrite <- (N2Nat.id d).
  assert (Hn : (N.to_nat d < 16)%nat) by lia.
  clear Hd. generalize dependent (N.to_nat d). clear d. intros n Hn.
  do 16 (destruct n as [|n]; [reflexivity|]). lia.
Qed.

Lemma hex_digits_length (n : nat) (o : N) (acc : string) :
  String.length (Codec.hex_digits n o acc) = (n + String.length acc)%nat.
Proof.
  revert o acc. induction n as [|n IH]; intros o acc; simpl; [done|].
  rewrite IH. simpl. lia.
Qed.

Lemma hex_fold_hex_digits (n : nat) (o a : N) (acc : string) :
  Codec.hex_fold a (Codec.hex_digits n o acc) =
    Codec.hex_fold (a * 16 ^ N.of_nat n + o mod 16 ^ N.of_nat n)%N acc.
Proof.
  revert o a acc. induction n as [|n IH]; intros o a acc.
  - simpl. f_equal. rewrite N.mod_1_r. lia.
  - cbn [Codec.hex_digits]. rewrite IH. cbn [Codec.hex_fold].
    rewrite hex_val_hex_char by (apply N.mod_lt; lia).
    f_equal. rewrite Nat2N.inj_succ, N.pow_succ_r'.
    rewrite (N.Div0.mod_mul_r o 16 (16 ^ N.of_nat n)). lia.
Qed.

Lemma ObjectId_oid_str (o : N) :
  oid_fits o → Codec.ObjectId (Codec.oid_str o) = Some o.
Proof.
  intros Ho. unfold Codec.ObjectId, Codec.oid_str.
  rewrite hex_digits_length. simpl String.length. simpl Nat.eqb.
  rewrite hex_fold_hex_digits. cbn [Codec.hex_fold]. f_equal.
  rewrite N.mod_small by exact Ho. lia.
Qed.

Lemma oid_str_inj (o o' : N) :
  oid_fits o → oid_fits o' → Codec.oid_str o = Codec.oid_str o' → o = o'.
Proof.
  intros Ho Ho' E. apply ObjectId_oid_str in Ho, Ho'.
  rewrite E in Ho. congruence.
Qed.

(** X3. Round trip of identifiers: the string form of every twelve-byte
    [ObjectId] is accepted by [ensure_object_id], which gives back that
    [ObjectId] and leaves the state alone. *)
Theorem ensure_object_id_round_trip (o : N) (st : state) :
  oid_fits o → ensure_object_id (Codec.oid_str o) st = (Ok o, st).
Proof.
  intros Ho. apply ensure_object_id_some. by apply ObjectId_oid_str.
Qed.

Lemma ensure_object_id_round_trip_witness :
  ensure_object_id (Codec.oid_str 3054198966%N) sample
  = (Ok 3054198966%N, sample).
Proof.
  apply (ensure_object_id_round_trip 3054198966%N sample).
  unfold oid_fits. reflexivity.
Defined.

(** ** Creation *)

Lemma serialize_stored_as (o : N) (d : doc) :
  d !! "_id" = None →
  serialize (stored_as o d) = with_id (Codec.oid_str o) d.
Proof.
  intros Hd. unfold serialize, stored_as, with_id.
  rewrite bool_decide_eq_false_2 by apply insert_non_empty.
  rewrite lookup_insert_eq. simpl. rewrite insert_insert_eq.
  apply map_eq. intros k. destruct (decide (k = "_id")) as [->|Hk].
  - rewrite lookup_insert_eq. symmetry. apply lookup_union_Some_raw.
    right. split; [done|apply lookup_singleton_eq].
  - rewrite lookup_insert_ne by done. symmetry.
    rewrite lookup_union_l; [done|]. by rewrite lookup_singleton_ne.
Qed.

Lemma create_workspace_dump_no_id (p : CreateWorkspace.t) :
  CreateWorkspace.model_dump p !! "_id" = None.
Proof. done. Qed.

Lemma create_page_dump_no_id (p : CreatePage.t) :
  CreatePage.model_dump p !! "_id" = None.
Proof. unfold CreatePage.model_dump. by simplify_map_eq. Qed.

Lemma create_block_dump_no_id (p : CreateBlock.t) :
  CreateBlock.model_dump p !! "_id" = None.
Proof. unfold CreateBlock.model_dump. by simplify_map_eq. Qed.

Lemma find_some_of_elem (o : N) (l : list doc) (e : doc) :
  e ∈ l → e !! "_id" = Some (VOid o) →
  ∃ e', List.find (matches {[ "_id" := VOid o ]}) l = Some e'.
Proof.
  intros He Hid. destruct (first_at_of_elem o l e He Hid) as (i & e' & Hat).
  exists e'. by eapply find_first_at.
Qed.

Lemma create_workspace_run (p : CreateWorkspace.t) (st : state) :
  create_workspace p st =
    (Ok (RDoc (with_id (Codec.oid_str (next_oid (db st)))
                       (CreateWorkspace.model_dump p))),
     State (Store (workspace (db st)
                     ++ [stored_as (next_oid (db st))
                                   (CreateWorkspace.model_dump p)])
                  (page (db st)) (block (db st))
                  (N.succ (next_oid (db st))))
           (log st ++ [AInsertOne Workspace])).
Proof. by destruct st as [[ws pg bl n] lg]. Qed.

Lemma create_page_run (p : CreatePage.t) (st : state) (o : N) (e : doc) :
  Codec.ObjectId (CreatePage.workspace_id p) = Some o →
  e ∈ workspace (db st) → e !! "_id" = Some (VOid o) →
  create_page p st =
    (Ok (RDoc (with_id (Codec.oid_str (next_oid (db st)))
                       (CreatePage.model_dump p))),
     State (Store (workspace (db st))
                  (page (db st)
                     ++ [stored_as (next_oid (db st)) (CreatePage.model_dump p)])
                  (block (db st))
                  (N.succ (next_oid (db st))))
           (log st ++ [AFindOne Workspace; AInsertOne Page])).
Proof.
  intros Ho He Hid. destruct (find_some_of_elem o _ e He Hid) as [e' Hf].
  unfold create_page, find_one, create_document, insert_one. run_m.
  rewrite (ensure_object_id_some _ _ _ Ho). simpl. rewrite Hf.
  destruct st as [[ws pg bl n] lg]. simpl. by rewrite <- app_assoc.
Qed.

Lemma create_block_run (p : CreateBlock.t) (st : state) (o : N) (e : doc) :
  Codec.ObjectId (CreateBlock.page_id p) = Some o →
  e ∈ page (db st) → e !! "_id" = Some (VOid o) →
  create_block p st =
    (Ok (RDoc (with_id (Codec.oid_str (next_oid (db st)))
                       (CreateBlock.model_dump p))),
     State (Store (workspace (db st)) (page (db st))
                  (block (db st)
                     ++ [stored_as (next_oid (db st)) (CreateBlock.model_dump p)])
                  (N.succ (next_oid (db st))))
           (log st ++ [AFindOne Page; AInsertOne Block])).
Proof.
  intros Ho He Hid. destruct (find_some_of_elem o _ e He Hid) as [e' Hf].
  unfold create_block, find_one, create_document, insert_one. run_m.
  rewrite (ensure_object_id_some _ _ _ Ho). simpl. rewrite Hf.
  destruct st as [[ws pg bl n] lg]. simpl. by rewrite <- app_assoc.
Qed.

Lemma filter_matches_empty (l : list doc) : List.filter (matches ∅) l = l.
Proof.
  induction l as [|d l IH]; [done|].
  simpl. rewrite matches_empty. by rewrite IH.
Qed.

Lemma list_workspaces_run (st : state) :
  list_workspaces st =
    (Ok (RList (serialize <$> workspace (db st))),
     State (db st) (log st ++ [AFind Workspace])).
Proof.
  unfold list_workspaces, get_documents, find. run_m.
  by rewrite filter_matches_empty.
Qed.

Lemma serialize_id_oid (d : doc) (o : N) :
  d !! "_id" = Some (VOid o) →
  serialize d !! "_id" = Some (VStr (Codec.oid_str o)).
Proof. intros H. by rewrite serialize_id, H. Qed.

Lemma stored_as_id (o : N) (d : doc) : stored_as o d !! "_id" = Some (VOid o).
Proof. apply lookup_insert_eq. Qed.

Lemma stored_as_lookup_ne (o : N) (d : doc) (k : string) :
  k ≠ "_id" → stored_as o d !! k = d !! k.
Proof. intros Hk. unfold stored_as. by rewrite lookup_insert_ne. Qed.

Lemma Some_VStr_inj (s s' : string) :
  Some (VStr s) = Some (VStr s') → s = s'.
Proof. intros E. by injection E. Qed.

Lemma occurrences_app (id : string) (l l' : list doc) :
  occurrences id (l ++ l') = (occurrences id l + occurrences id l')%nat.
Proof. unfold occurrences. by rewrite List.filter_app, length_app. Qed.

Lemma occurrences_older (id : string) (n : N) (l : list doc) :
  Forall (oid_below n) l → (n < 16 ^ 24)%N →
  occurrences (Codec.oid_str n) (serialize <$> l) = 0%nat.
Proof.
  intros Hl Hn. unfold occurrences.
  induction Hl as [|d l (o & Ho & Hlt) _ IH]; [done|].
  rewrite fmap_cons. cbn [List.filter].
  rewrite (serialize_id_oid _ _ Ho).
  rewrite bool_decide_eq_false_2; [exact IH|].
  intros E. apply Some_VStr_inj in E.
  apply oid_str_inj in E; unfold oid_fits; lia.
Qed.

(** X4. Create Workspace never fails: it appends one Workspace record
    under a fresh identifier, leaves the Pages and the Blocks alone, and
    answers with the stored record, serialized; List Workspaces then answers
    with the previous listing followed by that record. *)
Theorem create_workspace_then_list (p : CreateWorkspace.t) (st : state) :
  let n := next_oid (db st) in
  let st1 := (create_workspace p st).2 in
  let rec := serialize (stored_as n (CreateWorkspace.model_dump p)) in
  (create_workspace p st).1 = Ok (RDoc rec)
  ∧ rec !! "_id" = Some (VStr (Codec.oid_str n))
  ∧ rec !! "name" = Some (VStr (CreateWorkspace.name p))
  ∧ workspace (db st1)
    = workspace (db st) ++ [stored_as n (CreateWorkspace.model_dump p)]
  ∧ page (db st1) = page (db st)
  ∧ block (db st1) = block (db st)
  ∧ (list_workspaces st1).1
    = Ok (RList ((serialize <$> workspace (db st)) ++ [rec])).
Proof.
  intros n st1 rec. unfold st1, rec, n.
  rewrite create_workspace_run, list_workspaces_run.
  cbn [fst snd db workspace page block].
  split.
  { by rewrite (serialize_stored_as _ _ (create_workspace_dump_no_id p)). }
  split.
  { apply serialize_id_oid, stored_as_id. }
  split.
  { rewrite serialize_lookup_ne, stored_as_lookup_ne by done.
    apply lookup_singleton_eq. }
  split; [reflexivity|]. split; [reflexivity|]. split; [reflexivity|].
  by rewrite fmap_app.
Qed.

(** X5. On a store with distinct generator-issued identifiers, the
    identifier that Create Workspace returns occurs exactly once in the
    listing of the Workspaces that follows. *)
Theorem created_workspace_listed_once (p : CreateWorkspace.t) (st : state) :
  ids_ok (db st) → generator_fits (db st) →
  ∃ l, (list_workspaces (create_workspace p st).2).1 = Ok (RList l)
       ∧ occurrences (Codec.oid_str (next_oid (db st))) l = 1%nat.
Proof.
  intros Hok Hfit. rewrite create_workspace_run, list_workspaces_run.
  cbn [fst snd db workspace].
  eexists. split; [reflexivity|].
  rewrite fmap_app, occurrences_app.
  destruct (Hok Workspace) as [_ Hb]. cbn [get_coll] in Hb.
  rewrite (occurrences_older (Codec.oid_str (next_oid (db st)))) by done.
  unfold occurrences. cbn [fmap list_fmap List.filter].
  rewrite (serialize_id_oid _ _ (stored_as_id _ _)).
  by rewrite bool_decide_eq_true_2.
Qed.

Lemma created_workspace_listed_once_witness :
  ∃ l, (list_workspaces
          (create_workspace (CreateWorkspace.Build "Ops") sample).2).1
       = Ok (RList l)
       ∧ occurrences (Codec.oid_str (next_oid (db sample))) l = 1%nat.
Proof.
  apply (created_workspace_listed_once (CreateWorkspace.Build "Ops") sample).
  - apply (reachable_ok sample_requests).
  - unfold generator_fits. vm_compute. reflexivity.
Defined.

Lemma ObjectId_nonempty (s : string) (o : N) :
  Codec.ObjectId s = Some o → s ≠ "".
Proof. intros H ->. discriminate H. Qed.

Lemma list_pages_run (w : string) (st : state) :
  w ≠ "" →
  list_pages (Some w) st =
    (Ok (RList (serialize <$> List.filter (has_workspace_id w) (page (db st)))),
     State (db st) (log st ++ [AFind Page])).
Proof.
  intros Hw. destruct w as [|c s]; [done|].
  unfold list_pages, get_documents, find. run_m.
  assert (E : List.filter (matches {[ "workspace_id" := VStr (String c s) ]})
                (page (db st))
              = List.filter (has_workspace_id (String c s)) (page (db st))).
  { apply filter_ext. intros d. by rewrite matches_singleton. }
  by rewrite E.
Qed.

Lemma list_blocks_run (page_id : string) (st : state) :
  Forall int_position (List.filter (has_page_id page_id) (block (db st))) →
  ∃ items,
    list_blocks page_id st =
      (Ok (RList (serialize <$> items)),
       State (db st) (log st ++ [AFind Block]))
    ∧ items ≡ₚ List.filter (has_page_id page_id) (block (db st)).
Proof.
  intros Hint.
  destruct (sort_by_spec position_key _ Hint) as (items & Hs & Hp & _).
  exists items. split; [|done].
  unfold list_blocks, get_documents, find, py_sort. run_m.
  assert (E : List.filter (matches {[ "page_id" := VStr page_id ]})
                (block (db st))
              = List.filter (has_page_id page_id) (block (db st))).
  { apply filter_ext. intros d. by rewrite matches_singleton. }
  by rewrite E, Hs.
Qed.

(** X6. Create Page under an existing Workspace succeeds: one look-up and
    one insert; the Page is appended under a fresh identifier with the
    [workspace_id] string and the title of the payload, the Workspaces and
    the Blocks are left alone, the answer is the stored record, serialized,
    and List Pages for that [workspace_id] then ends with it. *)
Theorem create_page_success (p : CreatePage.t) (st : state) (o : N) (e : doc) :
  Codec.ObjectId (CreatePage.workspace_id p) = Some o →
  e ∈ workspace (db st) → e !! "_id" = Some (VOid o) →
  let st1 := (create_page p st).2 in
  let new := stored_as (next_oid (db st)) (CreatePage.model_dump p) in
  (create_page p st).1 = Ok (RDoc (serialize new))
  ∧ new !! "workspace_id" = Some (VStr (CreatePage.workspace_id p))
  ∧ new !! "title" = Some (opt_str (CreatePage.title p))
  ∧ page (db st1) = page (db st) ++ [new]
  ∧ workspace (db st1) = workspace (db st)
  ∧ block (db st1) = block (db st)
  ∧ log st1 = log st ++ [AFindOne Workspace; AInsertOne Page]
  ∧ (list_pages (Some (CreatePage.workspace_id p)) st1).1
    = Ok (RList ((serialize <$>
                    List.filter (has_workspace_id (CreatePage.workspace_id p))
                                (page (db st)))
                 ++ [serialize new])).
Proof.
  intros Ho He Hid st1 new. unfold st1, new.
  assert (Hws : stored_as (next_oid (db st)) (CreatePage.model_dump p)
                  !! "workspace_id"
                = Some (VStr (CreatePage.workspace_id p))).
  { rewrite stored_as_lookup_ne by done. unfold CreatePage.model_dump.
    by simplify_map_eq. }
  rewrite (create_page_run _ _ _ _ Ho He Hid).
  rewrite (list_pages_run _ _ (ObjectId_nonempty _ _ Ho)).
  cbn [fst snd db workspace page block log].
  split.
  { by rewrite (serialize_stored_as _ _ (create_page_dump_no_id p)). }
  split; [exact Hws|]. split.
  { rewrite stored_as_lookup_ne by done. unfold CreatePage.model_dump.
    by simplify_map_eq. }
  split; [reflexivity|]. split; [reflexivity|]. split; [reflexivity|].
  split; [reflexivity|].
  rewrite List.filter_app, fmap_app. cbn [List.filter].
  unfold has_workspace_id at 2. by rewrite bool_decide_eq_true_2.
Qed.

Lemma create_page_success_witness :
  (create_page (CreatePage.Build W1 None) sample).1
  = Ok (RDoc (serialize (stored_as (next_oid (db sample))
                           (CreatePage.model_dump (CreatePage.Build W1 None))))).
Proof.
  apply (create_page_success (CreatePage.Build W1 None) sample 0%N
           (default ∅ (workspace (db sample) !! 0%nat))).
  - reflexivity.
  - apply (list_elem_of_lookup_2 _ 0%nat). reflexivity.
  - vm_compute. reflexivity.
Defined.





(** ** Deletion *)

Lemma absent_id_matches (o : N) (l : list doc) :
  absent_id o l → ∀ d, d ∈ l → matches {[ "_id" := VOid o ]} d = false.
Proof.
  intros H d Hd. rewrite matches_singleton.
  apply bool_decide_eq_false. by apply H.
Qed.

Lemma delete_one_found (c : coll) (filt : doc) (st : state) i d :
  first_at (matches filt) (get_coll c (db st)) i d →
  delete_one c filt st =
    (Ok 1%nat,
     State (set_coll c (delete i (get_coll c (db st))) (db st))
           (log st ++ [ADeleteOne c])).
Proof.
  intros H. unfold delete_one. run_m. by rewrite (delete_first_at _ _ _ _ H).
Qed.

Lemma delete_one_missing (c : coll) (filt : doc) (st : state) :
  (∀ d, d ∈ get_coll c (db st) → matches filt d = false) →
  delete_one c filt st = (Ok 0%nat, State (db st) (log st ++ [ADeleteOne c])).
Proof.
  intros H. unfold delete_one. run_m. by rewrite delete_first_none.
Qed.

Lemma delete_block_found (id : string) (o : N) (st : state) i d :
  Codec.ObjectId id = Some o →
  first_at (matches {[ "_id" := VOid o ]}) (block (db st)) i d →
  delete_block id st =
    (Ok (RDoc {[ "deleted" := VBool true ]}),
     State (set_coll Block (delete i (block (db st))) (db st))
           (log st ++ [ADeleteOne Block])).
Proof.
  intros Ho Hat. unfold delete_block. unfold mbind at 1, M_bind at 1.
  rewrite (ensure_object_id_some _ _ _ Ho).
  unfold mbind, M_bind. by rewrite (delete_one_found Block _ _ _ _ Hat).
Qed.

Lemma delete_block_missing (id : string) (o : N) (st : state) :
  Codec.ObjectId id = Some o →
  absent_id o (block (db st)) →
  delete_block id st =
    (Raise (HTTPException 404 "Block not found"),
     State (db st) (log st ++ [ADeleteOne Block])).
Proof.
  intros Ho Hno. unfold delete_block. unfold mbind at 1, M_bind at 1.
  rewrite (ensure_object_id_some _ _ _ Ho).
  unfold mbind, M_bind.
  by rewrite (delete_one_missing Block _ _ (absent_id_matches _ _ Hno)).
Qed.

Lemma delete_page_found (id : string) (o : N) (st : state) i d :
  Codec.ObjectId id = Some o →
  first_at (matches {[ "_id" := VOid o ]}) (page (db st)) i d →
  delete_page id st =
    (Ok (RDoc {[ "deleted" := VBool true ]}),
     State (Store (workspace (db st)) (delete i (page (db st)))
                  (List.filter (λ d, negb (has_page_id id d)) (block (db st)))
                  (next_oid (db st)))
           (log st ++ [ADeleteOne Page; ADeleteMany Block])).
Proof.
  intros Ho Hat. unfold delete_page. unfold mbind at 1, M_bind at 1.
  rewrite (ensure_object_id_some _ _ _ Ho).
  unfold mbind at 1, M_bind at 1.
  rewrite (delete_one_found Page _ _ _ _ Hat).
  unfold delete_many. run_m.
  assert (E : List.filter (λ d, negb (matches {[ "page_id" := VStr id ]} d))
                (block (db st))
              = List.filter (λ d, negb (has_page_id id d)) (block (db st))).
  { apply filter_ext. intros e. by rewrite matches_singleton. }
  rewrite E. by rewrite <- app_assoc.
Qed.

Lemma delete_page_missing (id : string) (o : N) (st : state) :
  Codec.ObjectId id = Some o →
  absent_id o (page (db st)) →
  delete_page id st =
    (Raise (HTTPException 404 "Page not found"),
     State (Store (workspace (db st)) (page (db st))
                  (List.filter (λ d, negb (has_page_id id d)) (block (db st)))
                  (next_oid (db st)))
           (log st ++ [ADeleteOne Page; ADeleteMany Block])).
Proof.
  intros Ho Hno. unfold delete_page. unfold mbind at 1, M_bind at 1.
  rewrite (ensure_object_id_some _ _ _ Ho).
  unfold mbind at 1, M_bind at 1.
  rewrite (delete_one_missing Page _ _ (absent_id_matches _ _ Hno)).
  unfold delete_many. run_m.
  assert (E : List.filter (λ d, negb (matches {[ "page_id" := VStr id ]} d))
                (block (db st))
              = List.filter (λ d, negb (has_page_id id d)) (block (db st))).
  { apply filter_ext. intros e. by rewrite matches_singleton. }
  rewrite E. by rewrite <- app_assoc.
Qed.

(** With distinct identifiers, removing the first record that carries [o]
    leaves none that does. *)
Lemma absent_after_delete (n : N) (o : N) (l : list doc) i d :
  ids_ok_coll n l →
  first_at (matches {[ "_id" := VOid o ]}) l i d →
  absent_id o (delete i l).
Proof.
  intros [Hnd _] Hat e He Hid.
  destruct (first_at_id _ _ _ _ Hat) as [Hi Hd].
  apply list_elem_of_lookup in He as [j Hj].
  rewrite list_lookup_delete in Hj.
  assert (Hids : ∀ a b x y, l !! a = Some x → l !! b = Some y →
                            x !! "_id" = y !! "_id" → a = b).
  { intros a b x y Ha Hb E. eapply NoDup_lookup; [exact Hnd|..];
      unfold ids; rewrite list_lookup_fmap.
    - by rewrite Ha.
    - rewrite Hb. simpl. by rewrite E. }
  case_decide as Hlt.
  - assert (j = i) by (eapply Hids; [exact Hj|exact Hi|congruence]). lia.
  - assert (S j = i) by (eapply Hids; [exact Hj|exact Hi|congruence]). lia.
Qed.

Lemma first_at_or_absent (o : N) (l : list doc) :
  absent_id o l ∨ ∃ i d, first_at (matches {[ "_id" := VOid o ]}) l i d.
Proof.
  destruct (first_match (matches {[ "_id" := VOid o ]}) l) as [Hno|H];
    [left|by right].
  intros d Hd. specialize (Hno d Hd). rewrite matches_singleton in Hno.
  by apply bool_decide_eq_false in Hno.
Qed.

(** X9. Delete Block with a parseable identifier makes one delete access:
    when no Block carries the identifier it fails with 404 "Block not found"
    and the store is as before; otherwise it succeeds and removes the first
    Block that carries it, keeping the other Blocks in their order and the
    other collections untouched (no cascade). *)
Theorem delete_block_outcomes (id : string) (o : N) (st : state) :
  Codec.ObjectId id = Some o →
  (absent_id o (block (db st)) →
     delete_block id st =
       (Raise (HTTPException 404 "Block not found"),
        State (db st) (log st ++ [ADeleteOne Block])))
  ∧ (∀ d, d ∈ block (db st) → d !! "_id" = Some (VOid o) →
     ∃ i e,
       block (db st) !! i = Some e ∧ e !! "_id" = Some (VOid o)
       ∧ delete_block id st =
           (Ok (RDoc {[ "deleted" := VBool true ]}),
            State (Store (workspace (db st)) (page (db st))
                         (delete i (block (db st))) (next_oid (db st)))
                  (log st ++ [ADeleteOne Block]))).
Proof.
  intros Ho. split.
  - by apply delete_block_missing.
  - intros d Hd Hid. destruct (first_at_of_elem o _ d Hd Hid) as (i & e & Hat).
    exists i, e. destruct (first_at_id _ _ _ _ Hat) as [Hi He].
    split; [exact Hi|]. split; [exact He|].
    by rewrite (delete_block_found _ _ _ _ _ Ho Hat).
Qed.

Lemma delete_block_outcomes_witness :
  delete_block W1 sample =
    (Raise (HTTPException 404 "Block not found"),
     State (db sample) (log sample ++ [ADeleteOne Block]))
  ∧ ∃ i e,
      block (db sample) !! i = Some e ∧ e !! "_id" = Some (VOid 3%N)
      ∧ delete_block B2 sample =
          (Ok (RDoc {[ "deleted" := VBool true ]}),
           State (Store (workspace (db sample)) (page (db sample))
                        (delete i (block (db sample))) (next_oid (db sample)))
                 (log sample ++ [ADeleteOne Block])).
Proof.
  split.
  - apply (proj1 (delete_block_outcomes W1 0%N sample eq_refl)).
    unfold absent_id. apply Forall_forall.
    apply (bool_decide_unpack (Forall _ _)). vm_compute. exact I.
  - apply (proj2 (delete_block_outcomes B2 3%N sample eq_refl)
             (default ∅ (block (db sample) !! 1%nat))).
    + apply (list_elem_of_lookup_2 _ 1%nat). reflexivity.
    + vm_compute. reflexivity.
Defined.

Lemma filter_filter_same (f : doc → bool) (l : list doc) :
  List.filter f (List.filter f l) = List.filter f l.
Proof.
  induction l as [|d l IH]; [done|]. simpl.
  destruct (f d) eqn:E; simpl; [|done]. by rewrite E, IH.
Qed.

(** X10. Delete Page on an identifier that a Page carries succeeds: the
    first Page with that identifier is removed, the Blocks whose [page_id]
    is the identifier string are removed with it, the Workspaces and the
    identifier generator are untouched, and the accesses are one delete on
    the Pages followed by one delete on the Blocks. *)
Theorem delete_page_success (id : string) (o : N) (st : state) (d : doc) :
  Codec.ObjectId id = Some o →
  d ∈ page (db st) → d !! "_id" = Some (VOid o) →
  ∃ i e,
    page (db st) !! i = Some e ∧ e !! "_id" = Some (VOid o)
    ∧ delete_page id st =
        (Ok (RDoc {[ "deleted" := VBool true ]}),
         State (Store (workspace (db st)) (delete i (page (db st)))
                      (List.filter (λ b, negb (has_page_id id b))
                                   (block (db st)))
                      (next_oid (db st)))
               (log st ++ [ADeleteOne Page; ADeleteMany Block])).
Proof.
  intros Ho Hd Hid. destruct (first_at_of_elem o _ d Hd Hid) as (i & e & Hat).
  exists i, e. destruct (first_at_id _ _ _ _ Hat) as [Hi He].
  split; [exact Hi|]. split; [exact He|].
  exact (delete_page_found _ _ _ _ _ Ho Hat).
Qed.

Lemma delete_page_success_witness :
  ∃ i e,
    page (db sample) !! i = Some e ∧ e !! "_id" = Some (VOid 1%N)
    ∧ delete_page P1 sample =
        (Ok (RDoc {[ "deleted" := VBool true ]}),
         State (Store (workspace (db sample)) (delete i (page (db sample)))
                      (List.filter (λ b, negb (has_page_id P1 b))
                                   (block (db sample)))
                      (next_oid (db sample)))
               (log sample ++ [ADeleteOne Page; ADeleteMany Block])).
Proof.
  apply (delete_page_success P1 1%N sample
           (default ∅ (page (db sample) !! 0%nat)) eq_refl).
  - apply (list_elem_of_lookup_2 _ 0%nat). reflexivity.
  - vm_compute. reflexivity.
Defined.

(** X11. With distinct identifiers, Delete Page is not repeatable: whatever
    the first call did, a second call with the same identifier fails with
    404 "Page not found" and leaves the store exactly as the first call left
    it. *)
Theorem delete_page_twice (id : string) (o : N) (st : state) :
  Codec.ObjectId id = Some o →
  ids_ok (db st) →
  let st1 := (delete_page id st).2 in
  delete_page id st1 =
    (Raise (HTTPException 404 "Page not found"),
     State (db st1) (log st1 ++ [ADeleteOne Page; ADeleteMany Block])).
Proof.
  intros Ho Hok st1. unfold st1.
  destruct (first_at_or_absent o (page (db st))) as [Hno|(i & d & Hat)].
  - rewrite (delete_page_missing _ _ _ Ho Hno). cbn [snd].
    rewrite (delete_page_missing _ o); [|exact Ho|exact Hno].
    cbn [db workspace page block next_oid log].
    by rewrite filter_filter_same.
  - rewrite (delete_page_found _ _ _ _ _ Ho Hat). cbn [snd].
    rewrite (delete_page_missing _ o); [|exact Ho|].
    + cbn [db workspace page block next_oid log].
      by rewrite filter_filter_same.
    + cbn [db page]. eapply absent_after_delete; [apply (Hok Page)|exact Hat].
Qed.

Lemma delete_page_twice_witness :
  delete_page P1 (delete_page P1 sample).2 =
    (Raise (HTTPException 404 "Page not found"),
     State (db (delete_page P1 sample).2)
           (log (delete_page P1 sample).2 ++ [ADeleteOne Page; ADeleteMany Block])).
Proof.
  apply (delete_page_twice P1 1%N sample eq_refl).
  apply (reachable_ok sample_requests).
Defined.

Lemma tick_nonempty : not_none (UpdateBlock.model_dump tick) ≠ ∅.
Proof.
  intros H. apply update_block_mapping_empty in H as (_ & H & _).
  discriminate H.
Qed.

Lemma retitle_nonempty : not_none (UpdatePage.model_dump retitle) ≠ ∅.
Proof. intros H. apply update_page_mapping_empty in H. discriminate H. Qed.

(** X12. With distinct identifiers, once Delete Page has run for a
    parseable [page_id], a Block that was stored under that [page_id] can no
    longer be updated or deleted: Update Block with a non-empty update and
    Delete Block on its identifier fail with 404 "Block not found". *)
Theorem block_gone_after_delete_page (page_id block_id : string) (b : N)
    (st : state) (d : doc) (u : UpdateBlock.t) :
  ids_ok (db st) →
  is_Some (Codec.ObjectId page_id) →
  Codec.ObjectId block_id = Some b →
  d ∈ block (db st) →
  d !! "_id" = Some (VOid b) →
  d !! "page_id" = Some (VStr page_id) →
  not_none (UpdateBlock.model_dump u) ≠ ∅ →
  let st1 := (delete_page page_id st).2 in
  (update_block block_id u st1).1
    = Raise (HTTPException 404 "Block not found")
  ∧ (delete_block block_id st1).1
    = Raise (HTTPException 404 "Block not found").
Proof.
  intros Hok [o Ho] Hb Hd Hid Hpid Hne st1.
  assert (Hgone : absent_id b (block (db st1))).
  { unfold st1. rewrite (delete_page_blocks _ _ _ Ho).
    intros e He Heid.
    apply list_elem_of_In, filter_In in He as [He Hkeep].
    apply list_elem_of_In in He.
    assert (e = d) as ->.
    { eapply same_id_same_record; [apply (Hok Block)|exact He|exact Hd|].
      congruence. }
    rewrite matches_singleton, bool_decide_eq_true_2 in Hkeep by exact Hpid.
    discriminate Hkeep. }
  split.
  - rewrite (update_block_unfold _ _ _ Hne).
    by rewrite (update_tail_missing Block _ _ _ st1 b Hb
                  (absent_id_matches _ _ Hgone)).
  - by rewrite (delete_block_missing _ _ _ Hb Hgone).
Qed.

Lemma block_gone_after_delete_page_witness :
  (update_block B1 tick (delete_page P1 sample).2).1
    = Raise (HTTPException 404 "Block not found")
  ∧ (delete_block B1 (delete_page P1 sample).2).1
    = Raise (HTTPException 404 "Block not found").
Proof.
  apply (block_gone_after_delete_page P1 B1 2%N sample
           (default ∅ (block (db sample) !! 0%nat)) tick).
  - apply (reachable_ok sample_requests).
  - exists 1%N. reflexivity.
  - reflexivity.
  - apply (list_elem_of_lookup_2 _ 0%nat). reflexivity.
  - vm_compute. reflexivity.
  - vm_compute. reflexivity.
  - exact tick_nonempty.
Defined.

(** ** Updates *)

(** X13. An update with a non-empty mapping and a parseable identifier that
    no record carries fails with 404, "Page not found" or "Block not found",
    after a single update access, and the store is as before. *)
Theorem update_missing_record (id : string) (o : N) (st : state) :
  Codec.ObjectId id = Some o →
  (∀ u : UpdatePage.t,
     not_none (UpdatePage.model_dump u) ≠ ∅ →
     absent_id o (page (db st)) →
     update_page id u st =
       (Raise (HTTPException 404 "Page not found"),
        State (db st) (log st ++ [AUpdateOne Page])))
  ∧ (∀ u : UpdateBlock.t,
     not_none (UpdateBlock.model_dump u) ≠ ∅ →
     absent_id o (block (db st)) →
     update_block id u st =
       (Raise (HTTPException 404 "Block not found"),
        State (db st) (log st ++ [AUpdateOne Block]))).
Proof.
  intros Ho. split; intros u Hne Hno.
  - rewrite (update_page_unfold _ _ _ Hne).
    apply (update_tail_missing Page _ _ _ st o Ho).
    by apply absent_id_matches.
  - rewrite (update_block_unfold _ _ _ Hne).
    apply (update_tail_missing Block _ _ _ st o Ho).
    by apply absent_id_matches.
Qed.

Lemma update_missing_record_witness :
  update_page B1 retitle sample =
    (Raise (HTTPException 404 "Page not found"),
     State (db sample) (log sample ++ [AUpdateOne Page]))
  ∧ update_block P1 tick sample =
    (Raise (HTTPException 404 "Block not found"),
     State (db sample) (log sample ++ [AUpdateOne Block])).
Proof.
  split.
  - apply (proj1 (update_missing_record B1 2%N sample eq_refl) retitle).
    + exact retitle_nonempty.
    + unfold absent_id. apply Forall_forall.
      apply (bool_decide_unpack (Forall _ _)). vm_compute. exact I.
  - apply (proj2 (update_missing_record P1 1%N sample eq_refl) tick).
    + exact tick_nonempty.
    + unfold absent_id. apply Forall_forall.
      apply (bool_decide_unpack (Forall _ _)). vm_compute. exact I.
Defined.

Lemma set_coll_twice (c : coll) (l1 l2 : list doc) (s : store) :
  set_coll c l2 (set_coll c l1 s) = set_coll c l2 s.
Proof. by destruct c. Qed.

Section update_again.
Context (c : coll) (missing : string) (id : string) (upd : doc).

Local Abbreviation tail := (apply_update c missing id upd).

(** Doing the same update again answers the same and changes nothing
    more. *)
Lemma update_tail_again (st : state) :
  upd !! "_id" = None →
  (tail (tail st).2).1 = (tail st).1
  ∧ db (tail (tail st).2).2 = db (tail st).2.
Proof.
  intros Hupd.
  destruct (Codec.ObjectId id) as [o|] eqn:Ho.
  - destruct (first_match (matches {[ "_id" := VOid o ]})
                (get_coll c (db st))) as [Hno|(i & d & Hat)].
    + rewrite (update_tail_missing _ _ _ _ _ _ Ho Hno). cbn [snd fst].
      rewrite (update_tail_missing _ _ _ _ _ o); [done|exact Ho|exact Hno].
    + rewrite (update_tail_found _ _ _ _ _ _ _ _ Hupd Ho Hat). cbn [snd fst].
      assert (Hat' : first_at (matches {[ "_id" := VOid o ]})
                       (<[i := upd ∪ d]> (get_coll c (db st))) i (upd ∪ d)).
      { eapply first_at_insert; [exact Hat|].
        rewrite matches_id_union by done. by destruct Hat as (_ & ? & _). }
      erewrite (update_tail_found _ _ _ _ _ o i (upd ∪ d) Hupd Ho).
      * cbn [fst snd db]. rewrite get_set_coll, set_coll_twice.
        rewrite list_insert_insert_eq.
        by rewrite (assoc_L (∪)), (idemp_L (∪)).
      * cbn [db]. by rewrite get_set_coll.
  - rewrite (update_tail_invalid _ _ _ _ _ Ho). cbn [snd fst].
    by rewrite (update_tail_invalid _ _ _ _ _ Ho).
Qed.
End update_again.

(** X14. Updates are idempotent: sending the same Update Page or Update
    Block again gives the same answer (the same record, the same error) and
    leaves the store as the first call left it. *)
Theorem update_idempotent (id : string) (st : state) :
  (∀ u : UpdatePage.t,
     (update_page id u (update_page id u st).2).1 = (update_page id u st).1
     ∧ db (update_page id u (update_page id u st).2).2
       = db (update_page id u st).2)
  ∧ (∀ u : UpdateBlock.t,
     (update_block id u (update_block id u st).2).1 = (update_block id u st).1
     ∧ db (update_block id u (update_block id u st).2).2
       = db (update_block id u st).2).
Proof.
  split; intros u.
  - destruct (decide (not_none (UpdatePage.model_dump u) = ∅)) as [He|Hne].
    + rewrite (update_page_empty id u st He). cbn [fst snd].
      rewrite (update_page_empty id u st He). split; reflexivity.
    + rewrite (update_page_unfold id u st Hne).
      rewrite (update_page_unfold id u _ Hne).
      apply update_tail_again, update_page_mapping_no_id.
  - destruct (decide (not_none (UpdateBlock.model_dump u) = ∅)) as [He|Hne].
    + rewrite (update_block_empty id u st He). cbn [fst snd].
      rewrite (update_block_empty id u st He). split; reflexivity.
    + rewrite (update_block_unfold id u st Hne).
      rewrite (update_block_unfold id u _ Hne).
      apply update_tail_again, update_block_mapping_no_id.
Qed.

(** ** Listings *)

(** X15. The three list handlers only read: whatever they answer, List
    Blocks raising over incomparable positions included, the store is as
    before and the only access is one [find] on the collection listed. *)
Theorem listings_only_read (st : state) :
  (list_workspaces st).2 = State (db st) (log st ++ [AFind Workspace])
  ∧ (∀ w, (list_pages w st).2 = State (db st) (log st ++ [AFind Page]))
  ∧ (∀ p, (list_blocks p st).2 = State (db st) (log st ++ [AFind Block])).
Proof.
  split; [by rewrite list_workspaces_run|]. split.
  - intros w. unfold list_pages, get_documents, find. by run_m.
  - intros p. unfold list_blocks, get_documents, find, py_sort. run_m.
    by destruct (sort_by _ _).
Qed.

(** ** Every outcome of every handler *)

Lemma first_at_elem (o : N) (l : list doc) i d :
  first_at (matches {[ "_id" := VOid o ]}) l i d →
  d ∈ l ∧ d !! "_id" = Some (VOid o).
Proof.
  intros Hat. destruct (first_at_id _ _ _ _ Hat) as [Hi Hd].
  split; [by eapply list_elem_of_lookup_2|done].
Qed.

Lemma find_none_of_absent (o : N) (l : list doc) :
  absent_id o l → List.find (matches {[ "_id" := VOid o ]}) l = None.
Proof. intros H. apply find_none_iff. by apply absent_id_matches. Qed.

Lemma create_page_cases (p : CreatePage.t) (st : state) :
  create_page p st = (Raise (HTTPException 400 "Invalid id"), st)
  ∨ create_page p st =
      (Raise (HTTPException 404 "Workspace not found"),
       State (db st) (log st ++ [AFindOne Workspace]))
  ∨ ∃ o e,
      Codec.ObjectId (CreatePage.workspace_id p) = Some o
      ∧ e ∈ workspace (db st) ∧ e !! "_id" = Some (VOid o)
      ∧ create_page p st =
          (Ok (RDoc (with_id (Codec.oid_str (next_oid (db st)))
                             (CreatePage.model_dump p))),
           State (Store (workspace (db st))
                        (page (db st)
                           ++ [stored_as (next_oid (db st))
                                         (CreatePage.model_dump p)])
                        (block (db st)) (N.succ (next_oid (db st))))
                 (log st ++ [AFindOne Workspace; AInsertOne Page])).
Proof.
  destruct (Codec.ObjectId (CreatePage.workspace_id p)) as [o|] eqn:Ho.
  - destruct (first_at_or_absent o (workspace (db st)))
      as [Hno|(i & e & Hat)].
    + right. left. unfold create_page, find_one. run_m.
      rewrite (ensure_object_id_some _ _ _ Ho). cbn [db log].
      by rewrite (find_none_of_absent _ _ Hno).
    + right. right. destruct (first_at_elem _ _ _ _ Hat) as [He Hid].
      exists o, e. repeat (split; [done|]).
      by apply (create_page_run p st o e).
  - left. unfold create_page. run_m.
    by rewrite (ensure_object_id_none _ _ Ho).
Qed.

Lemma create_block_cases (p : CreateBlock.t) (st : state) :
  create_block p st = (Raise (HTTPException 400 "Invalid id"), st)
  ∨ create_block p st =
      (Raise (HTTPException 404 "Page not found"),
       State (db st) (log st ++ [AFindOne Page]))
  ∨ ∃ o e,
      Codec.ObjectId (CreateBlock.page_id p) = Some o
      ∧ e ∈ page (db st) ∧ e !! "_id" = Some (VOid o)
      ∧ create_block p st =
          (Ok (RDoc (with_id (Codec.oid_str (next_oid (db st)))
                             (CreateBlock.model_dump p))),
           State (Store (workspace (db st)) (page (db st))
                        (block (db st)
                           ++ [stored_as (next_oid (db st))
                                         (CreateBlock.model_dump p)])
                        (N.succ (next_oid (db st))))
                 (log st ++ [AFindOne Page; AInsertOne Block])).
Proof.
  destruct (Codec.ObjectId (CreateBlock.page_id p)) as [o|] eqn:Ho.
  - destruct (first_at_or_absent o (page (db st))) as [Hno|(i & e & Hat)].
    + right. left. unfold create_block, find_one. run_m.
      rewrite (ensure_object_id_some _ _ _ Ho). cbn [db log].
      by rewrite (find_none_of_absent _ _ Hno).
    + right. right. destruct (first_at_elem _ _ _ _ Hat) as [He Hid].
      exists o, e. repeat (split; [done|]).
      by apply (create_block_run p st o e).
  - left. unfold create_block. run_m.
    by rewrite (ensure_object_id_none _ _ Ho).
Qed.

Lemma delete_page_cases (id : string) (st : state) :
  delete_page id st = (Raise (HTTPException 400 "Invalid id"), st)
  ∨ (∃ o, Codec.ObjectId id = Some o ∧ absent_id o (page (db st))
      ∧ delete_page id st =
          (Raise (HTTPException 404 "Page not found"),
           State (Store (workspace (db st)) (page (db st))
                        (List.filter (λ d, negb (has_page_id id d))
                                     (block (db st)))
                        (next_oid (db st)))
                 (log st ++ [ADeleteOne Page; ADeleteMany Block])))
  ∨ ∃ o i d,
      Codec.ObjectId id = Some o
      ∧ first_at (matches {[ "_id" := VOid o ]}) (page (db st)) i d
      ∧ delete_page id st =
          (Ok (RDoc {[ "deleted" := VBool true ]}),
           State (Store (workspace (db st)) (delete i (page (db st)))
                        (List.filter (λ d, negb (has_page_id id d))
                                     (block (db st)))
                        (next_oid (db st)))
                 (log st ++ [ADeleteOne Page; ADeleteMany Block])).
Proof.
  destruct (Codec.ObjectId id) as [o|] eqn:Ho.
  - destruct (first_at_or_absent o (page (db st))) as [Hno|(i & e & Hat)].
    + right. left. exists o. repeat (split; [done|]).
      exact (delete_page_missing _ _ _ Ho Hno).
    + right. right. exists o, i, e. repeat (split; [done|]).
      exact (delete_page_found _ _ _ _ _ Ho Hat).
  - left. unfold delete_page. run_m.
    by rewrite (ensure_object_id_none _ _ Ho).
Qed.

Lemma delete_block_cases (id : string) (st : state) :
  delete_block id st = (Raise (HTTPException 400 "Invalid id"), st)
  ∨ delete_block id st =
      (Raise (HTTPException 404 "Block not found"),
       State (db st) (log st ++ [ADeleteOne Block]))
  ∨ ∃ i,
      delete_block id st =
        (Ok (RDoc {[ "deleted" := VBool true ]}),
         State (set_coll Block (delete i (block (db st))) (db st))
               (log st ++ [ADeleteOne Block])).
Proof.
  destruct (Codec.ObjectId id) as [o|] eqn:Ho.
  - destruct (first_at_or_absent o (block (db st))) as [Hno|(i & e & Hat)].
    + right. left. exact (delete_block_missing _ _ _ Ho Hno).
    + right. right. exists i. exact (delete_block_found _ _ _ _ _ Ho Hat).
  - left. unfold delete_block. run_m.
    by rewrite (ensure_object_id_none _ _ Ho).
Qed.

Section update_cases.
Context (c : coll) (missing : string) (id : string) (upd : doc).

Lemma update_tail_cases (st : state) :
  upd !! "_id" = None →
  apply_update c missing id upd st
    = (Raise (HTTPException 400 "Invalid id"), st)
  ∨ apply_update c missing id upd st
    = (Raise (HTTPException 404 missing),
       State (db st) (log st ++ [AUpdateOne c]))
  ∨ ∃ i d,
      get_coll c (db st) !! i = Some d
      ∧ apply_update c missing id upd st =
          (Ok (RDoc (serialize (upd ∪ d))),
           State (set_coll c (<[i := upd ∪ d]> (get_coll c (db st))) (db st))
                 (log st ++ [AUpdateOne c; AFindOne c])).
Proof.
  intros Hupd. destruct (Codec.ObjectId id) as [o|] eqn:Ho.
  - destruct (first_match (matches {[ "_id" := VOid o ]})
                (get_coll c (db st))) as [Hno|(i & d & Hat)].
    + right. left. exact (update_tail_missing _ _ _ _ _ _ Ho Hno).
    + right. right. exists i, d. split; [by destruct Hat|].
      exact (update_tail_found _ _ _ _ _ _ _ _ Hupd Ho Hat).
  - left. exact (update_tail_invalid _ _ _ _ _ Ho).
Qed.
End update_cases.

Lemma list_pages_db (w : option string) (st : state) :
  ∃ l, list_pages w st = (Ok (RList l), State (db st) (log st ++ [AFind Page])).
Proof. unfold list_pages, get_documents, find. run_m. by eexists. Qed.

Lemma list_blocks_db (p : string) (st : state) :
  ∃ r, list_blocks p st = (r, State (db st) (log st ++ [AFind Block])).
Proof.
  unfold list_blocks, get_documents, find, py_sort. run_m.
  destruct (sort_by _ _); by eexists.
Qed.

(** X16. A request that fails has inserted and updated nothing: the
    Workspaces, the Pages and the identifier generator are as before, and so
    are the Blocks, except that a Delete Page answering 404 has already
    removed the Blocks stored under its [page_id]. *)
Theorem failure_leaves_store (r : request) (st : state) (e : exn) :
  (handle r st).1 = Raise e →
  let st' := (handle r st).2 in
  workspace (db st') = workspace (db st)
  ∧ page (db st') = page (db st)
  ∧ next_oid (db st') = next_oid (db st)
  ∧ (block (db st') = block (db st)
     ∨ ∃ page_id,
         r = DeletePageReq page_id
         ∧ block (db st')
           = List.filter (λ b, negb (has_page_id page_id b)) (block (db st))).
Proof.
  intros Hfail st'. unfold st'. clear st'.
  destruct r as [p| |p|w|id u|id|p|pid|id u|id]; cbn [handle] in *.
  - rewrite create_workspace_run in Hfail. discriminate Hfail.
  - rewrite list_workspaces_run in Hfail. discriminate Hfail.
  - destruct (create_page_cases p st) as [E|[E|(o & x & _ & _ & _ & E)]];
      rewrite E in *; [by auto..|discriminate Hfail].
  - destruct (list_pages_db w st) as [l E]. rewrite E in Hfail.
    discriminate Hfail.
  - destruct (decide (not_none (UpdatePage.model_dump u) = ∅)) as [He|Hne].
    + rewrite (update_page_empty id u st He) in Hfail. discriminate Hfail.
    + rewrite (update_page_unfold id u st Hne) in *.
      destruct (update_tail_cases Page "Page not found" id _ st
                  (update_page_mapping_no_id u)) as [E|[E|(i & d & _ & E)]];
        rewrite E in *; [by auto..|discriminate Hfail].
  - destruct (delete_page_cases id st)
      as [E|[(o & _ & _ & E)|(o & i & d & _ & _ & E)]]; rewrite E in *.
    + by auto.
    + cbn [snd db workspace page block next_oid].
      repeat (split; [reflexivity|]). right. by exists id.
    + discriminate Hfail.
  - destruct (create_block_cases p st) as [E|[E|(o & x & _ & _ & _ & E)]];
      rewrite E in *; [by auto..|discriminate Hfail].
  - destruct (list_blocks_db pid st) as [r E]. rewrite E. by auto.
  - destruct (decide (not_none (UpdateBlock.model_dump u) = ∅)) as [He|Hne].
    + rewrite (update_block_empty id u st He) in Hfail. discriminate Hfail.
    + rewrite (update_block_unfold id u st Hne) in *.
      destruct (update_tail_cases Block "Block not found" id _ st
                  (update_block_mapping_no_id u)) as [E|[E|(i & d & _ & E)]];
        rewrite E in *; [by auto..|discriminate Hfail].
  - destruct (delete_block_cases id st) as [E|[E|(i & E)]];
      rewrite E in *; [by auto..|discriminate Hfail].
Qed.

Lemma failure_leaves_store_witness :
  workspace (db (handle (DeletePageReq W1) sample).2) = workspace (db sample)
  ∧ page (db (handle (DeletePageReq W1) sample).2) = page (db sample)
  ∧ next_oid (db (handle (DeletePageReq W1) sample).2) = next_oid (db sample)
  ∧ (block (db (handle (DeletePageReq W1) sample).2) = block (db sample)
     ∨ ∃ page_id,
         DeletePageReq W1 = DeletePageReq page_id
         ∧ block (db (handle (DeletePageReq W1) sample).2)
           = List.filter (λ b, negb (has_page_id page_id b))
                         (block (db sample))).
Proof.
  apply (failure_leaves_store (DeletePageReq W1) sample
           (HTTPException 404 "Page not found")).
  vm_compute. reflexivity.
Defined.

(** ** What holds in every state the API reaches *)



Lemma page_parent_ok_grow (s s' : store) (d : doc) :
  (∀ e, e ∈ workspace s → e ∈ workspace s') →
  page_parent_ok s d → page_parent_ok s' d.
Proof.
  intros Hsub (w & o & e & Hw & Ho & He & Hid).
  exists w, o, e. repeat (split; [done|]). split; [by apply Hsub|done].
Qed.

Lemma pages_ref_same (s s' : store) :
  workspace s' = workspace s → page s' `sublist_of` page s →
  pages_ref s → pages_ref s'.
Proof.
  intros Hw Hp Href d Hd.
  apply (page_parent_ok_grow s); [by rewrite Hw|].
  apply Href. by eapply elem_of_sublist.
Qed.

Lemma handle_pages_ref (r : request) (st : state) :
  pages_ref (db st) → pages_ref (db (handle r st).2).
Proof.
  intros Href.
  destruct r as [p| |p|w|id u|id|p|pid|id u|id]; cbn [handle].
  - rewrite create_workspace_run. cbn [snd db]. intros d Hd.
    apply (page_parent_ok_grow (db st)); [|by apply Href].
    intros e He. cbn [workspace]. apply elem_of_app. by left.
  - by rewrite list_workspaces_run.
  - destruct (create_page_cases p st) as [E|[E|(o & x & Ho & Hx & Hid & E)]];
      rewrite E; [done..|].
    cbn [snd db]. intros d Hd. cbn [page] in Hd.
    apply elem_of_app in Hd as [Hd|Hd].
    + by apply (page_parent_ok_grow (db st)); [|apply Href].
    + apply list_elem_of_singleton in Hd as ->.
      exists (CreatePage.workspace_id p), o, x.
      split; [|by repeat split].
      rewrite stored_as_lookup_ne by done. unfold CreatePage.model_dump.
      by simplify_map_eq.
  - destruct (list_pages_db w st) as [l E]. by rewrite E.
  - destruct (update_page_effect id u st) as [E|(i & d & Hi & E)];
      rewrite E; [done|].
    intros d' Hd'. cbn [page set_coll] in Hd'.
    apply (page_parent_ok_grow (db st)); [done|].
    apply list_elem_of_lookup in Hd' as [j Hj].
    destruct (decide (i = j)) as [->|Hne].
    + rewrite list_lookup_insert_eq in Hj by by eapply lookup_lt_Some.
      apply (inj Some) in Hj. subst d'.
      destruct (Href d) as (w & o & e & Hw & Hrest);
        [by eapply list_elem_of_lookup_2|].
      exists w, o, e. split; [|exact Hrest].
      rewrite lookup_union_r; [exact Hw|]. by rewrite update_page_mapping.
    + rewrite list_lookup_insert_ne in Hj by done.
      apply Href. by eapply list_elem_of_lookup_2.
  - destruct (delete_page_cases id st)
      as [E|[(o & _ & _ & E)|(o & i & d & _ & _ & E)]]; rewrite E.
    + done.
    + by apply (pages_ref_same (db st)).
    + apply (pages_ref_same (db st)); [done| |done].
      cbn [snd db page]. apply sublist_delete.
  - destruct (create_block_cases p st) as [E|[E|(o & x & _ & _ & _ & E)]];
      rewrite E; [done..|].
    by apply (pages_ref_same (db st)).
  - destruct (list_blocks_db pid st) as [r E]. by rewrite E.
  - destruct (update_block_effect id u st) as [E|(i & d & Hi & E)];
      rewrite E; [done|].
    by apply (pages_ref_same (db st)).
  - destruct (delete_block_cases id st) as [E|[E|(i & E)]]; rewrite E;
      [done..|].
    by apply (pages_ref_same (db st)).
Qed.

(** X18. No dangling Page: if every stored Page refers to a stored
    Workspace (its [workspace_id] string parses to the identifier of one),
    then so it is after any sequence of requests; in particular in every
    state reached from the empty store. *)
Theorem no_dangling_pages (rs : list request) (st : state) :
  pages_ref (db st) → pages_ref (db (run rs st)).
Proof.
  revert st. induction rs as [|r rs IH]; intros st Href; [done|].
  cbn [run foldl]. apply IH. by apply handle_pages_ref.
Qed.

Lemma no_dangling_pages_witness :
  pages_ref (db (run (sample_requests ++ sample_edits) init)).
Proof.
  apply (no_dangling_pages (sample_requests ++ sample_edits) init).
  intros d Hd. by apply elem_of_nil in Hd.
Defined.

(** ** Parents are checked by identifier, children are found by spelling *)

Lemma run_app (rs rs' : list request) (st : state) :
  run (rs ++ rs') st = run rs' (run rs st).
Proof. unfold run. apply foldl_app. Qed.



(** ** More on updates and identifiers *)





(** ** Workspaces *)

Lemma handle_workspace (r : request) (st : state) :
  ∃ added, workspace (db (handle r st).2) = workspace (db st) ++ added.
Proof.
  assert (Hsame : ∀ x : state,
            workspace (db x) = workspace (db st) →
            ∃ added, workspace (db x) = workspace (db st) ++ added).
  { intros x Hx. exists []. by rewrite app_nil_r. }
  destruct r as [p| |p|w|id u|id|p|pid|id u|id]; cbn [handle].
  - rewrite create_workspace_run. by eexists.
  - rewrite list_workspaces_run. by apply Hsame.
  - destruct (create_page_cases p st) as [E|[E|(o & x & _ & _ & _ & E)]];
      rewrite E; by apply Hsame.
  - destruct (list_pages_db w st) as [l E]. rewrite E. by apply Hsame.
  - destruct (update_page_effect id u st) as [E|(i & d & Hi & E)];
      apply Hsame; by rewrite E.
  - destruct (delete_page_cases id st)
      as [E|[(o & _ & _ & E)|(o & i & d & _ & _ & E)]];
      rewrite E; by apply Hsame.
  - destruct (create_block_cases p st) as [E|[E|(o & x & _ & _ & _ & E)]];
      rewrite E; by apply Hsame.
  - destruct (list_blocks_db pid st) as [r E]. rewrite E. by apply Hsame.
  - destruct (update_block_effect id u st) as [E|(i & d & Hi & E)];
      apply Hsame; by rewrite E.
  - destruct (delete_block_cases id st) as [E|[E|(i & E)]];
      rewrite E; by apply Hsame.
Qed.

(** X22. No request removes or changes a Workspace: after any sequence of
    requests the Workspaces stored before are still stored, unchanged and in
    their order, followed by those created since. *)
Theorem workspaces_only_grow (rs : list request) (st : state) :
  ∃ added, workspace (db (run rs st)) = workspace (db st) ++ added.
Proof.
  revert st. induction rs as [|r rs IH]; intros st.
  - exists []. by rewrite app_nil_r.
  - cbn [run foldl]. destruct (IH (handle r st).2) as [a2 E2].
    destruct (handle_workspace r st) as [a1 E1].
    exists (a1 ++ a2). unfold run in E2. rewrite E2, E1.
    by rewrite app_assoc.
Qed.
